(** * configure_reclient_cfgs.py: a shallow embedding and its properties

  The script resolves toolchain revisions, fetches the matching reclient
  configuration packages with [cipd ensure] and renders [reproxy.cfg] from
  a template.  Python [str] values are modelled as [string] (one [ascii]
  per code point, so the model covers text in the Latin-1 range), the file
  system as a finite map from path to node, and everything the script does
  to the outside (printing, logging, subprocesses, file updates) as a
  state-and-exception monad over a [World] that also records a trace. *)

From Stdlib Require Import ZArith Ascii String List Lia Bool.
From stdpp Require Import base option gmap strings list fin_maps.

Local Open Scope Z_scope.

(** ** Python strings *)

Module Str.

Definition nl : string := String "010"%char "".

Definition in_range (lo hi c : ascii) : bool :=
  (N_of_ascii lo <=? N_of_ascii c)%N && (N_of_ascii c <=? N_of_ascii hi)%N.

Definition eqc (a b : ascii) : bool := Ascii.eqb a b.

(** [str.isspace] on one code point below 256. *)
Definition isspace (c : ascii) : bool :=
  in_range "009" "013" c || in_range "028" "032" c
  || eqc c "133" || eqc c "160".

Fixpoint drop (n : nat) (s : string) : string :=
  match n, s with
  | O, _ => s
  | S n', String _ s' => drop n' s'
  | S _, EmptyString => EmptyString
  end.

Fixpoint take (n : nat) (s : string) : string :=
  match n, s with
  | S n', String c s' => String c (take n' s')
  | _, _ => EmptyString
  end.

(** Length of the longest prefix whose characters are all in [cls]. *)
Fixpoint span (cls : ascii → bool) (s : string) : nat :=
  match s with
  | String c s' => if cls c then S (span cls s') else O
  | EmptyString => O
  end.

Fixpoint all (cls : ascii → bool) (s : string) : bool :=
  match s with
  | String c s' => cls c && all cls s'
  | EmptyString => true
  end.

Definition is_empty (s : string) : bool :=
  match s with EmptyString => true | _ => false end.

Fixpoint lstrip (s : string) : string :=
  match s with
  | String c s' => if isspace c then lstrip s' else s
  | EmptyString => EmptyString
  end.

Fixpoint rstrip (s : string) : string :=
  match s with
  | String c s' =>
      let r := rstrip s' in
      if is_empty r && isspace c then EmptyString else String c r
  | EmptyString => EmptyString
  end.

(** [s.strip()] *)
Definition strip (s : string) : string := rstrip (lstrip s).

(** [s.split(sep)] for a one-character separator: never empty. *)
Fixpoint split (sep : ascii) (s : string) : list string :=
  match s with
  | EmptyString => [EmptyString]
  | String c s' =>
      if eqc c sep then EmptyString :: split sep s'
      else match split sep s' with
           | f :: fs => String c f :: fs
           | [] => [String c EmptyString]
           end
  end.

(** [s.startswith(p)] *)
Fixpoint startswith (p s : string) : bool :=
  match p, s with
  | EmptyString, _ => true
  | String a p', String b s' => eqc a b && startswith p' s'
  | String _ _, EmptyString => false
  end.

(** [s.endswith(c)] for one character. *)
Fixpoint endswith (c : ascii) (s : string) : bool :=
  match s with
  | EmptyString => false
  | String a EmptyString => eqc a c
  | String _ s' => endswith c s'
  end.

(** Truth value of an optional string: [None] and [''] are false. *)
Definition truthy (o : option string) : bool :=
  match o with
  | Some s => negb (is_empty s)
  | None => false
  end.

(** [str(x)] / ['%s' % x] for a string or [None]. *)
Definition str (o : option string) : string :=
  match o with
  | Some s => s
  | None => "None"
  end.

End Str.

(** ** The fragment of [re] the script uses *)

Module Re.

(** Patterns: literal text, a greedy repetition [[cls]{lo,}] of a character
    class, the capturing group, concatenation, and the anchors [^] and [$]. *)
Inductive regex :=
| Lit (s : string)
| Rep (cls : ascii → bool) (lo : nat)
| Grp (r : regex)
| Cat (r1 r2 : regex)
| Bol
| Eol.

(** Greedy repetition with backtracking: the longest run is tried first,
    then ever shorter ones down to [lo]. *)
Fixpoint backtrack {R} (lo : nat) (try : nat → option R) (j : nat) : option R :=
  if (j <? lo)%nat then None
  else match try j with
       | Some r => Some r
       | None =>
           match j with
           | O => None
           | S j' => backtrack lo try j'
           end
       end.

(** A match yields the text of group 1, when the group took part. *)
Definition found := option string.

(** [exec r pos s g k]: match [r] against [s], which starts at offset [pos]
    of the subject, with [g] the group captured so far; [k] continues with
    what follows [r] in the pattern. *)
Fixpoint exec (r : regex) (pos : nat) (s : string) (g : found)
    (k : nat → string → found → option found) : option found :=
  match r with
  | Lit l =>
      if Str.startswith l s
      then k (pos + String.length l)%nat (Str.drop (String.length l) s) g
      else None
  | Rep cls lo =>
      backtrack lo (λ j, k (pos + j)%nat (Str.drop j s) g) (Str.span cls s)
  | Grp r1 =>
      exec r1 pos s g (λ pos' s' _, k pos' s' (Some (Str.take (pos' - pos) s)))
  | Cat r1 r2 =>
      exec r1 pos s g (λ pos' s' g', exec r2 pos' s' g' k)
  | Bol => if (pos =? 0)%nat then k pos s g else None
  | Eol =>
      (* [$] matches at the end and just before a newline that ends the
         subject *)
      if Str.is_empty s || String.eqb s Str.nl then k pos s g else None
  end.

(** [re.match(r, s)]: anchored at the start, any suffix may remain. *)
Definition match_ (r : regex) (s : string) : option found :=
  exec r 0 s None (λ _ _ g, Some g).

(** [re.fullmatch(r, s)]: the whole subject must be consumed. *)
Definition fullmatch (r : regex) (s : string) : option found :=
  exec r 0 s None (λ _ s' g, if Str.is_empty s' then Some g else None).

(** [[0-9a-f]] *)
Definition hex_lower (c : ascii) : bool :=
  Str.in_range "0" "9" c || Str.in_range "a" "f" c.

(** [\w] on code points below 256: letters, digits and numeric characters
    of Latin-1, and the underscore. *)
Definition word (c : ascii) : bool :=
  Str.in_range "0" "9" c || Str.in_range "A" "Z" c || Str.in_range "a" "z" c
  || Str.eqc c "_"
  || Str.eqc c "170" || Str.eqc c "178" || Str.eqc c "179" || Str.eqc c "181"
  || Str.eqc c "185" || Str.eqc c "186" || Str.in_range "188" "190" c
  || Str.in_range "192" "214" c || Str.in_range "216" "246" c
  || Str.in_range "248" "255" c.

(** [[-\w]] *)
Definition word_or_hyphen (c : ascii) : bool := Str.eqc c "-" || word c.

End Re.

(** [RbeProjectFromInstance]: the pattern
  [projects/([-\w]+)/instances/[-\w]+] and its group 1. *)
Definition instance_re : Re.regex :=
  Re.Cat (Re.Lit "projects/")
    (Re.Cat (Re.Grp (Re.Rep Re.word_or_hyphen 1))
       (Re.Cat (Re.Lit "/instances/") (Re.Rep Re.word_or_hyphen 1))).

Definition RbeProjectFromInstance (instance : string) : option string :=
  match Re.fullmatch instance_re instance with
  | None => None
  | Some m => m
  end.

(** ** Exceptions, processes and the world *)

(** The errors of the operating system the script can meet, all of them
  subclasses of [OSError]. *)
Inductive oserror :=
| FileExistsError
| FileNotFoundError
| NotADirectoryError
| IsADirectoryError
| PermissionError
| SameFileError
| OtherOSError (errno : Z).

Inductive exn :=
| CalledProcessError (returncode : Z) (output : string)
| CipdError (output : string)
| CipdAuthError (output : string)
| IndexError
| ValueError (msg : string)
| KeyError (key : string)
| TypeError
| OSError (kind : oserror).

Inductive outcome (A : Type) :=
| Return (a : A)
| Raise (e : exn).
Arguments Return {A} a.
Arguments Raise {A} e.

(** A file-system node; modes are kept as requested by the caller
  (420 = 0o644, 493 = 0o755, 511 = 0o777). *)
Inductive node :=
| File (data : string) (mode : Z)
| Dir (mode : Z).

(** A subprocess call.  A command given to Python as one string is a
  one-element [cmd_args]. *)
Record command := {
  cmd_args : list string;
  cmd_shell : bool;
  cmd_cwd : option string;
  cmd_env : option (gmap string string);
  cmd_input : option string;
}.

Record completed := {
  returncode : Z;
  stdout : string;
  stderr : string;
}.

Inductive level := INFO | WARNING | ERROR.

(** What a run does to the outside, in order. *)
Inductive event :=
| LogConfig (minimum : level)
| Print (line : string)
| Flush
| Log (lv : level) (msg : string)
| Spawn (c : command) (r : completed)
| Makedirs (path : string) (mode : Z)
| Chmod (path : string) (mode : Z)
| Remove (path : string)
| Copy (src dst : string)
| WriteFile (path : string) (data : string).

Record World := {
  files : gmap string node;
  events : list event;
}.

(** What the script finds on the machine it runs on.  [spawn] is the
  operating system running a command: it answers with the completed
  process and the file system the process leaves behind.
  [PACKAGE_VERSION] is the constant of [tools/clang/scripts/update.py],
  a file of another repository.

  The store of files holds the kind of each node, not who may do what
  with it.  [refuses] stands for everything else that makes the operating
  system turn down one of the calls [os.makedirs], [os.chmod], [os.remove]
  and [shutil.copy] (missing rights, a full or read-only volume): asked
  about the call, given as the event it would leave, and the files it
  meets, it answers with the error raised and the files the failed call
  leaves, or with [None] when it has no objection.

  [glob_magic] is [glob.glob] on the patterns left out of [Fs.glob] below,
  those with a pattern character outside a leading [*] of the last
  component; nothing is assumed about its answers. *)
Record Host := {
  THIS_DIR : string;
  CHROMIUM_SRC : string;
  os_name : string;
  sys_platform : string;
  os_environ : gmap string string;
  PACKAGE_VERSION : string;
  spawn : command → World → completed * gmap string node;
  refuses : event → gmap string node → option (oserror * gmap string node);
  glob_magic : string → gmap string node → list string;
}.

(** ** The state-and-exception monad *)

Definition M (A : Type) : Type := World → outcome A * World.

Definition ret {A} (a : A) : M A := λ w, (Return a, w).

Definition raise {A} (e : exn) : M A := λ w, (Raise e, w).

Definition bind {A B} (m : M A) (f : A → M B) : M B :=
  λ w, match m w with
       | (Return a, w') => f a w'
       | (Raise e, w') => (Raise e, w')
       end.

(** [try: m] with the outcome handed to the [except] clauses. *)
Definition try {A} (m : M A) : M (outcome A) :=
  λ w, let '(r, w') := m w in (Return r, w').

Definition lift {A} (r : outcome A) : M A := λ w, (r, w).

Notation "x <- m ;; k" := (bind m (λ x, k))
  (at level 100, m at next level, right associativity, only parsing).
Notation "m ;;; k" := (bind m (λ _, k))
  (at level 100, right associativity, only parsing).

Definition emit (e : event) : M unit :=
  λ w, (Return tt, {| files := files w; events := events w ++ [e] |}).

Definition print (line : string) : M unit := emit (Print line).
Definition logging (lv : level) (msg : string) : M unit := emit (Log lv msg).

Definition get_files : M (gmap string node) := λ w, (Return (files w), w).

Definition set_files (fs : gmap string node) : M unit :=
  λ w, (Return tt, {| files := fs; events := events w |}).

(** ** [posixpath] and the file system *)

Module Path.

(** [posixpath.join(a, b)] *)
Definition join (a b : string) : string :=
  if Str.startswith "/" b then b
  else if Str.is_empty a || Str.endswith "/" a then a +:+ b
  else a +:+ "/" +:+ b.

Definition join3 (a b c : string) : string := join (join a b) c.

(** [posixpath.join(a, b)] where [b] may be [None]: [os.fspath] refuses
    it. *)
Definition join_opt (a : string) (b : option string) : outcome string :=
  match b with
  | Some b' => Return (join a b')
  | None => Raise TypeError
  end.

(** [posixpath.basename(p)]: what follows the last slash. *)
Definition basename (p : string) : string :=
  List.last (Str.split "/" p) EmptyString.

(** [p[:i], p[i:]] for [i = p.rfind('/') + 1]. *)
Fixpoint cut (p : string) : string * string :=
  match p with
  | EmptyString => (EmptyString, EmptyString)
  | String c p' =>
      let '(h, t) := cut p' in
      if Str.is_empty h
      then (if Str.eqc c "/" then (String c EmptyString, p') else (EmptyString, p))
      else (String c h, t)
  end.

Definition is_slash (c : ascii) : bool := Str.eqc c "/".

Fixpoint rstrip_slash (s : string) : string :=
  match s with
  | String c s' =>
      let r := rstrip_slash s' in
      if Str.is_empty r && is_slash c then EmptyString else String c r
  | EmptyString => EmptyString
  end.

(** [posixpath.split(p)] *)
Definition split (p : string) : string * string :=
  let '(head, tail) := cut p in
  if negb (Str.is_empty head) && negb (Str.all is_slash head)
  then (rstrip_slash head, tail)
  else (head, tail).

End Path.

Module Fs.

Definition exists_ (p : string) (fs : gmap string node) : bool :=
  match fs !! p with Some _ => true | None => false end.

Definition isfile (p : string) (fs : gmap string node) : bool :=
  match fs !! p with Some (File _ _) => true | _ => false end.

Definition isdir (p : string) (fs : gmap string node) : bool :=
  match fs !! p with Some (Dir _) => true | _ => false end.

Definition read (p : string) (fs : gmap string node) : option string :=
  match fs !! p with Some (File d _) => Some d | _ => None end.

(** [open(p, 'w')] then [write]: the content is replaced, an existing
    file keeps its mode. *)
Definition write (p data : string) (fs : gmap string node) : gmap string node :=
  match fs !! p with
  | Some (File _ m) => <[p := File data m]> fs
  | _ => <[p := File data 420]> fs
  end.

(** What a call leaves: the files, and the error it raised when it
    failed.  Paths are taken as they are spelled: the store knows no links
    and is not asked about [.], [..] or doubled slashes. *)
Definition answer : Type := gmap string node * option oserror.

(** [/], however many slashes spell it. *)
Definition is_root (p : string) : bool :=
  negb (Str.is_empty p) && Str.all Path.is_slash p.

(** The error of a call on a path that is not there: one of the
    directories above it is a file, or it is just missing. *)
Fixpoint absent_error_go (fuel : nat) (p : string) (fs : gmap string node)
    : oserror :=
  match fuel with
  | O => FileNotFoundError
  | S fuel' =>
      let up := (Path.split p).1 in
      if Str.is_empty up || is_root up then FileNotFoundError
      else match fs !! up with
           | Some (File _ _) => NotADirectoryError
           | Some (Dir _) => FileNotFoundError
           | None => absent_error_go fuel' up fs
           end
  end.

Definition absent_error (p : string) (fs : gmap string node) : oserror :=
  absent_error_go (String.length p) p fs.

(** What keeps a new entry [p] from being made: the place it goes to is
    the current directory, the root or a directory of the store, or else
    there is an error. *)
Definition parent_error (p : string) (fs : gmap string node) : option oserror :=
  let up := (Path.split p).1 in
  if Str.is_empty up || is_root up then None
  else match fs !! up with
       | Some (Dir _) => None
       | Some (File _ _) => Some NotADirectoryError
       | None => Some (absent_error up fs)
       end.

(** [os.mkdir(p, mode)] *)
Definition mkdir (p : string) (mode : Z) (fs : gmap string node) : answer :=
  if Str.is_empty p then (fs, Some FileNotFoundError)
  else if is_root p then (fs, Some FileExistsError)
  else match fs !! p with
       | Some _ => (fs, Some FileExistsError)
       | None =>
           match parent_error p fs with
           | Some k => (fs, Some k)
           | None => (<[p := Dir mode]> fs, None)
           end
       end.

(** [os.makedirs(name, mode)]: missing ancestors are made first, with the
    default mode; a [FileExistsError] from there is passed over, any other
    error ends the call, as does an error of the last [mkdir]. *)
Fixpoint makedirs_go (fuel : nat) (name : string) (mode : Z)
    (fs : gmap string node) : answer :=
  match fuel with
  | O => (fs, None)
  | S fuel' =>
      let '(head, tail) := Path.split name in
      let '(head, tail) :=
        if Str.is_empty tail then Path.split head else (head, tail) in
      if negb (Str.is_empty head) && negb (Str.is_empty tail)
         && negb (exists_ head fs)
      then
        let '(fs', err) := makedirs_go fuel' head 511 fs in
        match err with
        | None | Some FileExistsError =>
            if String.eqb tail "." then (fs', None) else mkdir name mode fs'
        | Some k => (fs', Some k)
        end
      else mkdir name mode fs
  end.

Definition makedirs (name : string) (mode : Z) (fs : gmap string node) : answer :=
  makedirs_go (S (String.length name)) name mode fs.

(** [os.chmod(p, mode)] *)
Definition chmod (p : string) (mode : Z) (fs : gmap string node) : answer :=
  match fs !! p with
  | Some (File d _) => (<[p := File d mode]> fs, None)
  | Some (Dir _) => (<[p := Dir mode]> fs, None)
  | None => (fs, Some (absent_error p fs))
  end.

(** [os.remove(p)]: for files only ([IsADirectoryError] is what Linux
    answers for a directory). *)
Definition remove (p : string) (fs : gmap string node) : answer :=
  match fs !! p with
  | Some (File _ _) => (delete p fs, None)
  | Some (Dir _) => (fs, Some IsADirectoryError)
  | None => (fs, Some (absent_error p fs))
  end.

(** [shutil.copy(src, dst)]: a destination that is a directory stands for
    the entry of the source's name in it; the source is opened first, then
    the destination; data and permission bits of the file are copied. *)
Definition copy (src dst : string) (fs : gmap string node) : answer :=
  let dst := if isdir dst fs then Path.join dst (Path.basename src) else dst in
  match fs !! src with
  | None => (fs, Some (absent_error src fs))
  | Some (Dir _) => (fs, Some IsADirectoryError)
  | Some (File d m) =>
      if String.eqb src dst then (fs, Some SameFileError)
      else match fs !! dst with
           | Some (Dir _) => (fs, Some IsADirectoryError)
           | Some (File _ _) => (<[dst := File d m]> fs, None)
           | None =>
               match parent_error dst fs with
               | Some k => (fs, Some k)
               | None => (<[dst := File d m]> fs, None)
               end
           end
  end.

Fixpoint ends_with (suffix s : string) : bool :=
  String.eqb s suffix
  || match s with
     | String _ s' => ends_with suffix s'
     | EmptyString => false
     end.

(** [os.listdir(d)]: the names directly under [d], each path of the store
    being spelled the way [join] spells it. *)
Definition listdir (d : string) (fs : gmap string node) : list string :=
  omap (λ kv : string * node,
          let '(head, tail) := Path.split kv.1 in
          if String.eqb head d && negb (Str.is_empty tail)
             && String.eqb (Path.join d tail) kv.1
          then Some tail else None)
       (map_to_list fs).

(** The matches of [*suffix] in the directory [d]: the names under [d]
    that end in [suffix] and do not start with a dot, each joined to [d]. *)
Definition glob_suffix (d suffix : string) (fs : gmap string node) : list string :=
  if isdir d fs
  then (λ n, Path.join d n)
         <$> List.filter
               (λ n, negb (Str.startswith "." n) && ends_with suffix n)
               (listdir d fs)
  else [].

(** [*], [?] and [[] are what [glob] takes for pattern characters. *)
Definition magic_char (c : ascii) : bool :=
  Str.eqc c "*" || Str.eqc c "?" || Str.eqc c "[".

Definition has_magic (s : string) : bool :=
  negb (Str.all (λ c, negb (magic_char c)) s).

(** [glob.glob(pattern)] for a pattern whose directory part is literal and
    whose last component is literal or [*] followed by literal text; a
    pattern with a pattern character anywhere else is handed to [magic]. *)
Definition glob (magic : string → gmap string node → list string)
    (pattern : string) (fs : gmap string node) : list string :=
  let '(d, base) := Path.split pattern in
  if has_magic d then magic pattern fs
  else
    match base with
    | String c suffix =>
        if Str.eqc c "*" then
          if has_magic suffix then magic pattern fs else glob_suffix d suffix fs
        else if has_magic base then magic pattern fs
        else if exists_ pattern fs then [pattern] else []
    | EmptyString => if isdir pattern fs then [pattern] else []
    end.

End Fs.

(** ** [string.Template] *)

Module Template.

(** What the template pattern finds at a [$]: [$$], [$identifier],
    [${identifier}], or a [$] that starts none of these. *)
Inductive token :=
| Text (c : ascii)
| Escaped
| Named (id : string)
| Braced (id : string)
| Invalid.

Definition letter (c : ascii) : bool :=
  Str.in_range "a" "z" c || Str.in_range "A" "Z" c.

(** [[_a-z]] and [[_a-z0-9]], ASCII only, case ignored. *)
Definition id_start (c : ascii) : bool := Str.eqc c "_" || letter c.
Definition id_char (c : ascii) : bool := id_start c || Str.in_range "0" "9" c.

(** Length of the identifier [s] starts with, 0 if it starts with none. *)
Definition ident_len (s : string) : nat :=
  match s with
  | String c s' => if id_start c then S (Str.span id_char s') else O
  | EmptyString => O
  end.

(** The successive matches of the pattern, with the text between them.
    After an invalid [$] the scan goes on right behind it. *)
Fixpoint scan (fuel : nat) (s : string) : list token :=
  match fuel, s with
  | S fuel', String c s1 =>
      if Str.eqc c "$" then
        match s1 with
        | String c1 s2 =>
            if Str.eqc c1 "$" then Escaped :: scan fuel' s2
            else if Str.eqc c1 "{" then
              let n := ident_len s2 in
              if (0 <? n)%nat && Str.startswith "}" (Str.drop n s2)
              then Braced (Str.take n s2) :: scan fuel' (Str.drop (S n) s2)
              else Invalid :: scan fuel' s1
            else
              let n := ident_len s1 in
              if (0 <? n)%nat
              then Named (Str.take n s1) :: scan fuel' (Str.drop n s1)
              else Invalid :: scan fuel' s1
        | EmptyString => [Invalid]
        end
      else Text c :: scan fuel' s1
  | _, _ => []
  end.

Definition tokens (s : string) : list token := scan (String.length s) s.

(** The replacement of one match: [str(mapping[name])], [$], or the
    [ValueError] of an invalid placeholder (its message names a line and
    a column, left out here). *)
Definition convert (mapping : gmap string (option string)) (t : token)
    : outcome string :=
  match t with
  | Text c => Return (String c EmptyString)
  | Escaped => Return "$"
  | Named id | Braced id =>
      match mapping !! id with
      | Some v => Return (Str.str v)
      | None => Raise (KeyError id)
      end
  | Invalid => Raise (ValueError "Invalid placeholder in string")
  end.

(** Matches are replaced from left to right; the first one that fails
    ends the substitution. *)
Fixpoint render (mapping : gmap string (option string)) (ts : list token)
    : outcome string :=
  match ts with
  | [] => Return EmptyString
  | t :: ts' =>
      match convert mapping t with
      | Raise e => Raise e
      | Return piece =>
          match render mapping ts' with
          | Raise e => Raise e
          | Return out => Return (piece +:+ out)
          end
      end
  end.

(** [string.Template(s).substitute(mapping)] *)
Definition substitute (s : string) (mapping : gmap string (option string))
    : outcome string :=
  render mapping (tokens s).

End Template.

(** ** The script *)

Definition nl := Str.nl.

Definition REPROXY_CFG_HEADER : string :=
  "# AUTOGENERATED FILE - DO NOT EDIT" +:+ nl +:+
  "# Generated by configure_reclient_cfgs.py" +:+ nl +:+
  "# To edit:" +:+ nl +:+
  "# Update reproxy_cfg_templates/$reproxy_cfg_template" +:+ nl +:+
  "# And run 'gclient sync' or 'gclient runhooks'" +:+ nl.

Definition AUTO_AUTH_FLAGS : string :=
  nl +:+ "# Googler auth flags" +:+ nl +:+
  "automatic_auth=true" +:+ nl +:+
  "gcert_refresh_timeout=20" +:+ nl.

Definition ADC_AUTH_FLAGS : string :=
  nl +:+ "# ADC auth flags" +:+ nl +:+
  "use_application_default_credentials=true" +:+ nl.

(** [^[0-9a-f]{40,}$] *)
Definition commit_re : Re.regex :=
  Re.Cat Re.Bol (Re.Cat (Re.Rep Re.hex_lower 40) Re.Eol).

(** The body of the [try] in [NaclRevision]. *)
Definition parse_commit (revinfo : string) : outcome string :=
  match Str.split "@" revinfo !! 1%nat with
  | None => Raise IndexError
  | Some commit =>
      match Re.match_ commit_re commit with
      | None => Raise (ValueError "invalid commit hash")
      | Some _ => Return commit
      end
  end.

(** [' '.join(words)] *)
Fixpoint join_space (words : list string) : string :=
  match words with
  | [] => EmptyString
  | [w] => w
  | w :: ws => w +:+ " " +:+ join_space ws
  end.

Record Args := {
  rewrapper_cfg_project : option string;
  reproxy_cfg_template : option string;
  rbe_instance : option string;
  cipd_prefix : string;
  skip_remoteexec_cfg_fetch : bool;
  quiet : bool;
}.

(** How the part of [main] before the loop ends: with an exit code, or with
  what the loop needs. *)
Inductive progress (A : Type) :=
| Stop (code : Z)
| Go (a : A).
Arguments Stop {A} code.
Arguments Go {A} a.

Section Script.

Context (host : Host).

(** [subprocess.run(...)] *)
Definition run (c : command) : M completed :=
  λ w, let '(r, fs) := spawn host c w in
       (Return r, {| files := fs; events := events w ++ [Spawn c r] |}).

(** [subprocess.run(..., check=True)] *)
Definition run_checked (c : command) : M completed :=
  r <- run c ;;
  if returncode r =? 0 then ret r
  else raise (CalledProcessError (returncode r) (stdout r)).

(** A call on the file system.  The operating system may refuse it for
    a reason of its own; otherwise [step] says what the call leaves and
    whether it fails.  A call that fails raises its [OSError] and is not
    entered in the trace. *)
Definition os_call (call : event) (step : gmap string node → Fs.answer) : M unit :=
  λ w, match refuses host call (files w) with
       | Some (k, fs) => (Raise (OSError k), {| files := fs; events := events w |})
       | None =>
           match step (files w) with
           | (fs, None) =>
               (Return tt, {| files := fs; events := events w ++ [call] |})
           | (fs, Some k) =>
               (Raise (OSError k), {| files := fs; events := events w |})
           end
       end.

Definition os_makedirs (p : string) (mode : Z) : M unit :=
  os_call (Makedirs p mode) (Fs.makedirs p mode).

Definition os_chmod (p : string) (mode : Z) : M unit :=
  os_call (Chmod p mode) (Fs.chmod p mode).

Definition os_remove (p : string) : M unit :=
  os_call (Remove p) (Fs.remove p).

Definition shutil_copy (src dst : string) : M unit :=
  os_call (Copy src dst) (Fs.copy src dst).

Definition write_file (p data : string) : M unit :=
  fs <- get_files ;; set_files (Fs.write p data fs) ;;; emit (WriteFile p data).

Definition ClangRevision : M (option string) :=
  ret (Some (PACKAGE_VERSION host)).

Definition NaclRevision : M (option string) :=
  let nacl_dir := Path.join (CHROMIUM_SRC host) "native_client" in
  fs <- get_files ;;
  if negb (Fs.exists_ (Path.join nacl_dir "README.md") fs) then ret None
  else if Fs.isdir (Path.join nacl_dir ".git") fs then
    r <- run_checked
           {| cmd_args := ["git"; "log"; "-1"; "--format=%H"];
              cmd_shell := String.eqb (os_name host) "nt";
              cmd_cwd := Some nacl_dir;
              cmd_env := None;
              cmd_input := None |} ;;
    ret (Some (Str.strip (stdout r)))
  else
    let gclient_env := <["DEPOT_TOOLS_UPDATE" := "0"]> (os_environ host) in
    r <- run_checked
           {| cmd_args := ["gclient"; "revinfo"; "--filter=src/native_client"];
              cmd_shell := String.eqb (os_name host) "nt";
              cmd_cwd := None;
              cmd_env := Some gclient_env;
              cmd_input := None |} ;;
    let revinfo := Str.strip (stdout r) in
    match parse_commit revinfo with
    | Return commit => ret (Some commit)
    | Raise IndexError | Raise (ValueError _) =>
        logging WARNING
          ("Could not parse output of 'gclient revinfo --filter=src/native_client': "
           +:+ (if Str.is_empty revinfo then "<empty>" else revinfo)) ;;;
        logging WARNING
          "src/native_client seems present, but neither Git nor gclient know its revision?" ;;;
        ret None
    | Raise e => raise e
    end.

Definition IsCipdLoggedIn : M bool :=
  ps <- run {| cmd_args := ["cipd"; "auth-info"];
               cmd_shell := true;
               cmd_cwd := None;
               cmd_env := None;
               cmd_input := None |} ;;
  logging INFO
    ("log for http://b/304677840: stdout from cipd auth-info: " +:+ stdout ps) ;;;
  logging INFO
    ("log for http://b/304677840: stderr from cipd auth-info: " +:+ stderr ps) ;;;
  ret (returncode ps =? 0).

(** The command of [CipdEnsure]; its standard error goes to its standard
    output, so [stdout] of the answer is the captured output. *)
Definition ensure_command (pkg_name ref directory : string) (quiet : bool)
    : command :=
  let log_level := if quiet then "warning" else "info" in
  let ensure_file :=
    nl +:+ "$ParanoidMode CheckIntegrity" +:+ nl +:+
    pkg_name +:+ " " +:+ ref +:+ nl in
  {| cmd_args := [join_space ["cipd"; "ensure"; "-log-level=" +:+ log_level;
                              "-root"; directory; "-ensure-file"; "-"]];
     cmd_shell := true;
     cmd_cwd := None;
     cmd_env := None;
     cmd_input := Some ensure_file |}.

Definition CipdEnsure (pkg_name ref directory : string) (quiet : bool) : M unit :=
  print ("ensure " +:+ pkg_name +:+ " " +:+ ref +:+ " in " +:+ directory) ;;;
  r <- run (ensure_command pkg_name ref directory quiet) ;;
  if returncode r =? 0 then logging INFO (stdout r)
  else
    logged_in <- IsCipdLoggedIn ;;
    if negb logged_in then raise (CipdAuthError (stdout r))
    else raise (CipdError (stdout r)).

Definition tmpl_path (reproxy_cfg_template : string) : string :=
  Path.join3 (THIS_DIR host) "reproxy_cfg_templates" reproxy_cfg_template.

Definition reproxy_cfg_path : string := Path.join (THIS_DIR host) "reproxy.cfg".

Definition on_windows : bool := Str.startswith "win" (sys_platform host).

Definition depsscanner_address : string :=
  let address :=
    "exec://" +:+
    Path.join (Path.join3 (CHROMIUM_SRC host) "buildtools" "reclient")
              "scandeps_server" in
  if on_windows then address +:+ ".exe" else address.

Definition auth_flags : string :=
  if on_windows then ADC_AUTH_FLAGS else AUTO_AUTH_FLAGS.

(** The dictionary handed to [substitute]. *)
Definition template_context (reproxy_cfg_template rbe_instance : string)
    (rbe_project : option string) : gmap string (option string) :=
  <["rbe_instance" := Some rbe_instance]>
    (<["rbe_project" := rbe_project]>
       (<["reproxy_cfg_template" := Some reproxy_cfg_template]>
          (<["depsscanner_address" := Some depsscanner_address]>
             (<["auth_flags" := Some auth_flags]> ∅)))).

Definition GenerateReproxyCfg (reproxy_cfg_template rbe_instance : string)
    (rbe_project : option string) : M bool :=
  let tmpl_path := tmpl_path reproxy_cfg_template in
  logging INFO ("generate reproxy.cfg using " +:+ tmpl_path) ;;;
  fs <- get_files ;;
  match fs !! tmpl_path with
  | Some (File content _) =>
      let reproxy_cfg_tmpl := REPROXY_CFG_HEADER +:+ content in
      reproxy_cfg <-
        lift (Template.substitute reproxy_cfg_tmpl
                (template_context reproxy_cfg_template rbe_instance rbe_project)) ;;
      write_file reproxy_cfg_path reproxy_cfg ;;;
      ret true
  | _ =>
      logging WARNING (tmpl_path +:+ " does not exist") ;;;
      ret false
  end.

Definition auth_instructions : list string :=
  [ "Access to remoteexec config CIPD package requires authentication.";
    "-----------------------------------------------------------------";
    "";
    "I'm sorry for the hassle, but you may need to do a one-time manual";
    "authentication. Please run:";
    "";
    "    cipd auth-login";
    "";
    "and follow the instructions.";
    "";
    "NOTE: Use your google.com credentials, not chromium.org.";
    "";
    "-----------------------------------------------------------------";
    "" ].

Fixpoint print_lines (lines : list string) : M unit :=
  match lines with
  | [] => ret tt
  | l :: ls => print l ;;; print_lines ls
  end.

Definition RequestCipdAuthentication : M unit :=
  print_lines auth_instructions ;;; emit Flush.

(** [glob.glob(pattern)] *)
Definition glob (pattern : string) : M (list string) :=
  fs <- get_files ;; ret (Fs.glob (glob_magic host) pattern fs).

(** The loop over the [.cfg] files of a fetched [win-cross] directory. *)
Fixpoint copy_cfgs (wcedir : string) (cfgs : list string) : M unit :=
  match cfgs with
  | [] => ret tt
  | cfg :: rest =>
      let fname := Path.join wcedir (Path.basename cfg) in
      fs <- get_files ;;
      (if Fs.exists_ fname fs
       then os_chmod fname 511 ;;; os_remove fname
       else ret tt) ;;;
      logging INFO ("Copy from " +:+ cfg +:+ " to " +:+ fname +:+ "...") ;;;
      shutil_copy cfg fname ;;;
      copy_cfgs wcedir rest
  end.

(** What the loop body does once [CipdEnsure] has returned. *)
Definition install_win_cross (toolchain toolchain_root : string) : M unit :=
  let win_cross_cfg_dir := "win-cross" in
  let wcedir := Path.join3 (THIS_DIR host) win_cross_cfg_dir toolchain in
  fs <- get_files ;;
  (if negb (Fs.exists_ wcedir fs) then os_makedirs wcedir 493 else ret tt) ;;;
  fs <- get_files ;;
  if Fs.exists_ (Path.join toolchain_root win_cross_cfg_dir) fs then
    cfgs <- glob (Path.join3 toolchain_root win_cross_cfg_dir "*.cfg") ;;
    copy_cfgs wcedir cfgs
  else ret tt.

(** The loop of [main] over [tool_revisions], in insertion order, and the
    [return 0] behind it. *)
Fixpoint fetch_toolchains (quiet : bool) (cipd_prefix : string)
    (tool_revisions : list (string * option string)) : M Z :=
  match tool_revisions with
  | [] => ret 0
  | (toolchain, revision) :: rest =>
      if negb (Str.truthy revision) then
        logging INFO ("failed to detect " +:+ toolchain +:+ " revision") ;;;
        fetch_toolchains quiet cipd_prefix rest
      else
        let toolchain_root := Path.join (THIS_DIR host) toolchain in
        let cipd_ref := "revision/" +:+ Str.str revision in
        r <- try (CipdEnsure (Path.join cipd_prefix toolchain) cipd_ref
                    toolchain_root quiet) ;;
        match r with
        | Raise (CipdAuthError _) => RequestCipdAuthentication ;;; ret 1
        | Raise (CipdError output) => logging ERROR output ;;; ret 1
        | Raise e => raise e
        | Return _ =>
            install_win_cross toolchain toolchain_root ;;;
            fetch_toolchains quiet cipd_prefix rest
        end
  end.

(** [main] from the [skip_remoteexec_cfg_fetch] test up to the loop. *)
Definition main_revisions (args : Args) (rbe_project : option string)
    : M (progress (string * list (string * option string))) :=
  if skip_remoteexec_cfg_fetch args then ret (Stop 0)
  else
    logging INFO
      ("fetch reclient_cfgs for RBE project " +:+ Str.str rbe_project +:+ "...") ;;;
    cipd_prefix <- lift (Path.join_opt (cipd_prefix args) rbe_project) ;;
    clang <- ClangRevision ;;
    nacl <- NaclRevision ;;
    ret (Go (cipd_prefix,
             [("chromium-browser-clang", clang);
              ("nacl", nacl);
              ("python", Some "3.8.0")])).

(** [main] up to the loop. *)
Definition main_setup (args : Args)
    : M (progress (string * list (string * option string))) :=
  emit (LogConfig (if quiet args then WARNING else INFO)) ;;;
  if negb (Str.truthy (rewrapper_cfg_project args))
     && negb (Str.truthy (rbe_instance args))
  then
    logging ERROR
      "At least one of --rbe_instance and --rewrapper_cfg_project must be provided" ;;;
    ret (Stop 1)
  else
    rbe_project <-
      (if negb (Str.truthy (rewrapper_cfg_project args)) then
         match rbe_instance args with
         | Some instance => ret (RbeProjectFromInstance instance)
         | None => raise TypeError
         end
       else ret (rewrapper_cfg_project args)) ;;
    if Str.truthy (reproxy_cfg_template args) then
      if negb (Str.truthy (rbe_instance args)) then
        logging ERROR
          "--rbe_instance is required if --reproxy_cfg_template is set" ;;;
        ret (Stop 1)
      else
        generated <- GenerateReproxyCfg (Str.str (reproxy_cfg_template args))
                       (Str.str (rbe_instance args)) rbe_project ;;
        if negb generated then ret (Stop 1)
        else main_revisions args rbe_project
    else main_revisions args rbe_project.

Definition main (args : Args) : M Z :=
  g <- main_setup args ;;
  match g with
  | Stop code => ret code
  | Go (cipd_prefix, tool_revisions) =>
      fetch_toolchains (quiet args) cipd_prefix tool_revisions
  end.

End Script.

(** ** Notions used in the statements *)

(** A run of [cls] characters ends where the text does, or at the first
    character outside [cls]. *)
Definition stops (cls : ascii → bool) (r : string) : Prop :=
  match r with
  | EmptyString => True
  | String c _ => cls c = false
  end.

(** The strings of the form [projects/P/instances/I], with [P] and [I]
  non-empty and made of word characters and hyphens. *)
Definition instance_form (P I instance : string) : Prop :=
  instance = "projects/" +:+ P +:+ "/instances/" +:+ I
  ∧ P ≠ "" ∧ I ≠ ""
  ∧ Str.all Re.word_or_hyphen P = true
  ∧ Str.all Re.word_or_hyphen I = true.

(** ** Worlds around the ensure command *)

Section EnsureWorlds.

Context (host : Host).

(** The query [NaclRevision] falls back to. *)
Definition revinfo_command : command :=
  {| cmd_args := ["gclient"; "revinfo"; "--filter=src/native_client"];
     cmd_shell := String.eqb (os_name host) "nt";
     cmd_cwd := None;
     cmd_env := Some (<["DEPOT_TOOLS_UPDATE" := "0"]> (os_environ host));
     cmd_input := None |}.

(** The world the ensure command is started in: [CipdEnsure] has printed
    its line. *)
Definition ensure_started (pkg_name ref directory : string) (w : World) : World :=
  {| files := files w;
     events := events w
               ++ [Print ("ensure " +:+ pkg_name +:+ " " +:+ ref +:+ " in " +:+ directory)] |}.

(** What the ensure command answers there. *)
Definition ensure_answer (pkg_name ref directory : string) (quiet : bool)
    (w : World) : completed :=
  (spawn host (ensure_command pkg_name ref directory quiet)
     (ensure_started pkg_name ref directory w)).1.

(** The world it leaves behind. *)
Definition ensure_done (pkg_name ref directory : string) (quiet : bool)
    (w : World) : World :=
  let w0 := ensure_started pkg_name ref directory w in
  let c := ensure_command pkg_name ref directory quiet in
  {| files := (spawn host c w0).2;
     events := events w0 ++ [Spawn c (spawn host c w0).1] |}.

End EnsureWorlds.

(** ** Machines to run the script on *)

Module Demo.

(** A process that succeeds, prints [out] and leaves the files alone. *)
Definition answers (out : string) : command → World → completed * gmap string node :=
  λ _ w, ({| returncode := 0; stdout := out; stderr := "" |}, files w).

(** A process that fails with [code], printing [out]. *)
Definition fails (code : Z) (out : string)
    : command → World → completed * gmap string node :=
  λ _ w, ({| returncode := code; stdout := out; stderr := "" |}, files w).

Definition is_auth_info (c : command) : bool :=
  match cmd_args c with
  | [a; b] => String.eqb a "cipd" && String.eqb b "auth-info"
  | _ => false
  end.

(** [cipd ensure] fails with [out]; [cipd auth-info] ends with [auth]. *)
Definition cipd_down (auth : Z) (out : string)
    : command → World → completed * gmap string node :=
  λ c w, if is_auth_info c
         then ({| returncode := auth; stdout := ""; stderr := "" |}, files w)
         else ({| returncode := 1; stdout := out; stderr := "" |}, files w).

Definition linux (version : string)
    (os : command → World → completed * gmap string node) : Host :=
  {| THIS_DIR := "/src/buildtools/reclient_cfgs";
     CHROMIUM_SRC := "/src";
     os_name := "posix";
     sys_platform := "linux";
     os_environ := ∅;
     PACKAGE_VERSION := version;
     spawn := os;
     refuses := λ _ _, None;
     glob_magic := λ _ _, [] |}.

(** A checkout of [native_client] without [.git]. *)
Definition exported_nacl : World :=
  {| files := <["/src/native_client/README.md" := File "" 420]> ∅;
     events := [] |}.

Definition empty_world : World := {| files := ∅; events := [] |}.

Definition a40 : string := "aaaaaaaaaaaaaaaaaaaaaaaaaaaaaaaaaaaaaaaa".

Definition is_warning (e : event) : bool :=
  match e with Log WARNING _ => true | _ => false end.

(** A checkout whose only template, [linux.cfg], holds [content]. *)
Definition templated (content : string) : World :=
  {| files :=
       <["/src/buildtools/reclient_cfgs/reproxy_cfg_templates/linux.cfg"
         := File content 420]> ∅;
     events := [] |}.

(** The [python] package fetched with a [win-cross] directory, and an older
    copy of its file already in the sibling directory. *)
Definition fetched : World :=
  {| files :=
       <["/src/buildtools/reclient_cfgs/python/win-cross" := Dir 493]>
         (<["/src/buildtools/reclient_cfgs/python/win-cross/rewrapper.cfg"
            := File "new" 292]>
            (<["/src/buildtools/reclient_cfgs/win-cross/python" := Dir 493]>
               (<["/src/buildtools/reclient_cfgs/win-cross/python/rewrapper.cfg"
                  := File "old" 292]> ∅)));
     events := [] |}.


(** A checkout in which [win-cross], beside the script, is a file. *)
Definition win_cross_is_file : World :=
  {| files := <["/src/buildtools/reclient_cfgs" := Dir 493]>
                (<["/src/buildtools/reclient_cfgs/win-cross" := File "" 420]> ∅);
     events := [] |}.

Definition flags (project template instance : option string) (skip : bool) : Args :=
  {| rewrapper_cfg_project := project;
     reproxy_cfg_template := template;
     rbe_instance := instance;
     cipd_prefix := "infra_internal/rbe/reclient_cfgs";
     skip_remoteexec_cfg_fetch := skip;
     quiet := false |}.

End Demo.

(** ** Reading the trace and the template *)

Definition is_spawn (e : event) : bool :=
  match e with Spawn _ _ => true | _ => false end.

Definition changes_files (e : event) : bool :=
  match e with
  | Makedirs _ _ | Chmod _ _ | Remove _ | Copy _ _ | WriteFile _ _ => true
  | _ => false
  end.

(** A stretch of the trace in which no process is started. *)
Definition calm (new : list event) : Prop := Forall (λ e, is_spawn e = false) new.

(** The five names [GenerateReproxyCfg] gives a value to. *)
Definition template_keys : list string :=
  ["rbe_instance"; "rbe_project"; "reproxy_cfg_template";
   "depsscanner_address"; "auth_flags"].

(** A placeholder whose name is none of the five. *)
Definition unknown_placeholder (t : Template.token) : bool :=
  match t with
  | Template.Named id | Template.Braced id => negb (bool_decide (id ∈ template_keys))
  | _ => false
  end.

Definition is_invalid (t : Template.token) : bool :=
  match t with Template.Invalid => true | _ => false end.

(** An occurrence [substitute] fails on. *)
Definition offending (t : Template.token) : bool :=
  is_invalid t || unknown_placeholder t.

(** The exception of an offending occurrence. *)
Definition offence (t : Template.token) : exn :=
  match t with
  | Template.Named id | Template.Braced id => KeyError id
  | _ => ValueError "Invalid placeholder in string"
  end.

(** The world [GenerateReproxyCfg] works in once it has logged its first
    line. *)
Definition generate_started (tmpl_path : string) (w : World) : World :=
  {| files := files w;
     events := events w ++ [Log INFO ("generate reproxy.cfg using " +:+ tmpl_path)] |}.

(** The commands started by a stretch of the trace, in order. *)
Definition spawned (evs : list event) : list command :=
  omap (λ e, match e with Spawn c _ => Some c | _ => None end) evs.

(** The probe of [IsCipdLoggedIn]. *)
Definition auth_info_command : command :=
  {| cmd_args := ["cipd"; "auth-info"];
     cmd_shell := true;
     cmd_cwd := None;
     cmd_env := None;
     cmd_input := None |}.

(** A toolchain of [tool_revisions] whose revision is neither [None] nor
    empty. *)
Definition resolved (entry : string * option string) : bool := Str.truthy entry.2.

(** The world [main] works in once logging is configured. *)
Definition configured (args : Args) (w : World) : World :=
  {| files := files w;
     events := events w ++ [LogConfig (if quiet args then WARNING else INFO)] |}.

Section LoopWorlds.

Context (host : Host).

(** The command [main] fetches a toolchain with. *)
Definition fetch_command (quiet : bool) (cipd_prefix : string)
    (entry : string * option string) : command :=
  ensure_command (Path.join cipd_prefix entry.1) ("revision/" +:+ Str.str entry.2)
    (Path.join (THIS_DIR host) entry.1) quiet.

(** The world after [RequestCipdAuthentication]. *)
Definition asked_to_log_in (w : World) : World :=
  {| files := files w;
     events := events w ++ (Print <$> auth_instructions) ++ [Flush] |}.

(** The sibling directory of a toolchain and the [win-cross] directory of
    its package. *)
Definition wcedir (toolchain : string) : string :=
  Path.join3 (THIS_DIR host) "win-cross" toolchain.

Definition package_win_cross (toolchain : string) : string :=
  Path.join (Path.join (THIS_DIR host) toolchain) "win-cross".

(** The [.cfg] files [glob] finds in the [win-cross] directory of a
    package. *)
Definition package_cfgs (toolchain : string) (fs : gmap string node) : list string :=
  Fs.glob (glob_magic host)
    (Path.join3 (Path.join (THIS_DIR host) toolchain) "win-cross" "*.cfg") fs.

(** The line logged before a file is copied. *)
Definition copy_note (cfg fname : string) : event :=
  Log INFO ("Copy from " +:+ cfg +:+ " to " +:+ fname +:+ "...").

(** The world after the note on an unresolved toolchain. *)
Definition skipped (toolchain : string) (w : World) : World :=
  {| files := files w;
     events := events w
               ++ [Log INFO ("failed to detect " +:+ toolchain +:+ " revision")] |}.

End LoopWorlds.

(** ** Further notions *)

Section MoreWorlds.

Context (host : Host).

(** The query [NaclRevision] makes in a checkout with [.git]. *)
Definition git_log_command : command :=
  {| cmd_args := ["git"; "log"; "-1"; "--format=%H"];
     cmd_shell := String.eqb (os_name host) "nt";
     cmd_cwd := Some (Path.join (CHROMIUM_SRC host) "native_client");
     cmd_env := None;
     cmd_input := None |}.

(** The banner as it is written: the name of the template in place of
    its placeholder. *)
Definition banner (reproxy_cfg_template : string) : string :=
  "# AUTOGENERATED FILE - DO NOT EDIT" +:+ nl +:+
  "# Generated by configure_reclient_cfgs.py" +:+ nl +:+
  "# To edit:" +:+ nl +:+
  "# Update reproxy_cfg_templates/" +:+ reproxy_cfg_template +:+ nl +:+
  "# And run 'gclient sync' or 'gclient runhooks'" +:+ nl.

(** [sys.exit(main())]: the status the process ends with.  An exception
    nobody catches ends it with status 1. *)
Definition script (args : Args) (w : World) : Z * World :=
  match main host args w with
  | (Return code, w') => (code, w')
  | (Raise _, w') => (1, w')
  end.

End MoreWorlds.

(** The exceptions that can leave [main]: all but the two of
    [CipdEnsure], which the loop catches, and the [IndexError] that
    [NaclRevision] catches. *)
Definition uncaught (e : exn) : bool :=
  match e with
  | CipdError _ | CipdAuthError _ | IndexError => false
  | _ => true
  end.

(** The events a world has gained since an earlier one. *)
Definition since (w w' : World) : list event :=
  drop (length (events w)) (events w').

(** The two exceptions of [substitute]. *)
Definition template_error (e : exn) : bool :=
  match e with
  | KeyError _ | ValueError _ => true
  | _ => false
  end.

(** A text without [$]. *)
Definition plain (s : string) : bool := Str.all (λ c, negb (Str.eqc c "$")) s.

(** * Properties *)

(** Unfold the monad and the calls that only update the world. *)
Ltac run_monad :=
  cbv [bind ret raise try lift emit print logging get_files set_files write_file];
  cbn [files events].

(** ** Strings *)

Example join_ex1 : Path.join "infra_internal/rbe/reclient_cfgs" "p" = "infra_internal/rbe/reclient_cfgs/p".
Proof. reflexivity. Qed.
Example join_ex2 : Path.join "/a/b/" "c" = "/a/b/c".
Proof. reflexivity. Qed.
Example join_ex3 : Path.join "/a/b" "/c" = "/c".
Proof. reflexivity. Qed.
Example split_ex1 : Path.split "/a/b/c.cfg" = ("/a/b", "c.cfg").
Proof. reflexivity. Qed.
Example split_ex2 : Path.split "/a" = ("/", "a").
Proof. reflexivity. Qed.
Example basename_ex1 : Path.basename "/a/b/c.cfg" = "c.cfg".
Proof. reflexivity. Qed.
Example makedirs_ex1 :
  Fs.makedirs "/b/win-cross/nacl" 493 (<["/b" := Dir 493]> ∅)
  = (<["/b/win-cross/nacl" := Dir 493]>
       (<["/b/win-cross" := Dir 511]> (<["/b" := Dir 493]> ∅)), None).
Proof. vm_compute. reflexivity. Qed.
Example makedirs_ex2 :
  Fs.makedirs "/b/win-cross/nacl" 493 (<["/b/win-cross" := File "" 420]> ∅)
  = (<["/b/win-cross" := File "" 420]> ∅, Some NotADirectoryError).
Proof. vm_compute. reflexivity. Qed.
Example makedirs_ex3 :
  Fs.makedirs "/b/nacl" 493 (<["/b/nacl" := File "" 420]> (<["/b" := Dir 493]> ∅))
  = (<["/b/nacl" := File "" 420]> (<["/b" := Dir 493]> ∅), Some FileExistsError).
Proof. vm_compute. reflexivity. Qed.
Example remove_ex1 :
  Fs.remove "/b/a.cfg" (<["/b/a.cfg" := Dir 493]> ∅)
  = (<["/b/a.cfg" := Dir 493]> ∅, Some IsADirectoryError).
Proof. vm_compute. reflexivity. Qed.
Example copy_ex1 :
  Fs.copy "/r/a.cfg" "/b/a.cfg" (<["/r/a.cfg" := Dir 493]> (<["/b" := Dir 493]> ∅))
  = (<["/r/a.cfg" := Dir 493]> (<["/b" := Dir 493]> ∅), Some IsADirectoryError).
Proof. vm_compute. reflexivity. Qed.
Example copy_ex2 :
  Fs.copy "/r/a.cfg" "/b/a.cfg" (<["/r/a.cfg" := File "x" 292]> (<["/b" := File "" 420]> ∅))
  = (<["/r/a.cfg" := File "x" 292]> (<["/b" := File "" 420]> ∅), Some NotADirectoryError).
Proof. vm_compute. reflexivity. Qed.
Example copy_ex3 :
  Fs.copy "/r/a.cfg" "/b" (<["/r/a.cfg" := File "x" 292]> (<["/b" := Dir 493]> ∅))
  = (<["/b/a.cfg" := File "x" 292]>
       (<["/r/a.cfg" := File "x" 292]> (<["/b" := Dir 493]> ∅)), None).
Proof. vm_compute. reflexivity. Qed.
Example glob_ex1 :
  Fs.glob_suffix "/r/win-cross" ".cfg"
    (<["/r/win-cross/a.cfg" := File "x" 292]>
       (<["/r/win-cross/.h.cfg" := File "x" 292]>
          (<["/r/win-cross/sub/b.cfg" := File "x" 292]>
             (<["/r/win-cross/c.txt" := File "x" 292]>
                (<["/r/win-cross" := Dir 493]> ∅)))))
  = ["/r/win-cross/a.cfg"].
Proof. vm_compute. reflexivity. Qed.
Example glob_ex2 :
  ∀ magic fs, Fs.glob magic "/r[1]/win-cross/*.cfg" fs = magic "/r[1]/win-cross/*.cfg" fs.
Proof. reflexivity. Qed.

Example substitute_ex1 :
  Template.substitute "a=$x, b=${y}z, $$" (<["x" := Some "1"]> (<["y" := None]> ∅))
  = Return "a=1, b=Nonez, $".
Proof. vm_compute. reflexivity. Qed.
Example substitute_ex2 :
  Template.substitute "a=$x $q" (<["x" := Some "1"]> ∅) = Raise (KeyError "q").
Proof. vm_compute. reflexivity. Qed.
Example substitute_ex3 :
  Template.substitute "50$ $q" ∅ = Raise (ValueError "Invalid placeholder in string").
Proof. vm_compute. reflexivity. Qed.


Section StrFacts.

Local Open Scope nat_scope.

Lemma app_cons (c : ascii) (a b : string) :
  String c a +:+ b = String c (a +:+ b).
Proof. reflexivity. Qed.

Lemma app_empty_r (s : string) : s +:+ "" = s.
Proof. induction s as [|c s IH]; [done|]. by rewrite app_cons, IH. Qed.

Lemma app_assoc_str (a b c : string) : (a +:+ b) +:+ c = a +:+ (b +:+ c).
Proof. induction a as [|x a IH]; [done|]. by rewrite !app_cons, IH. Qed.


Lemma is_empty_true (s : string) : Str.is_empty s = true ↔ s = "".
Proof. by destruct s. Qed.


Lemma startswith_app (l r : string) : Str.startswith l (l +:+ r) = true.
Proof.
  induction l as [|c l IH]; [reflexivity|].
  rewrite app_cons. simpl. unfold Str.eqc. by rewrite Ascii.eqb_refl.
Qed.

Lemma startswith_inv (l s : string) :
  Str.startswith l s = true → s = l +:+ Str.drop (String.length l) s.
Proof.
  revert s. induction l as [|c l IH]; intros s H; [done|].
  destruct s as [|d s]; [done|]. simpl in H.
  apply andb_true_iff in H as [Hc H]. apply Ascii.eqb_eq in Hc as ->.
  rewrite app_cons. simpl. f_equal. by apply IH.
Qed.

Lemma str_drop_app (p r : string) : Str.drop (String.length p) (p +:+ r) = r.
Proof. induction p as [|c p IH]; [done|]. by rewrite app_cons. Qed.

Lemma str_take_app (p r : string) : Str.take (String.length p) (p +:+ r) = p.
Proof. induction p as [|c p IH]; [by destruct r|]. rewrite app_cons. simpl. by rewrite IH. Qed.

Lemma take_drop_str (j : nat) (s : string) : Str.take j s +:+ Str.drop j s = s.
Proof.
  revert s. induction j as [|j IH]; intros [|c s]; try done.
  simpl. by rewrite app_cons, IH.
Qed.

Lemma length_take_str (j : nat) (s : string) :
  j ≤ String.length s → String.length (Str.take j s) = j.
Proof.
  revert s. induction j as [|j IH]; intros [|c s] H; simpl in *; try done; try lia.
  rewrite IH; lia.
Qed.

Lemma span_le_length (cls : ascii → bool) (s : string) :
  Str.span cls s ≤ String.length s.
Proof. induction s as [|c s IH]; simpl; [lia|]. destruct (cls c); lia. Qed.

Lemma all_take_span (cls : ascii → bool) (j : nat) (s : string) :
  j ≤ Str.span cls s → Str.all cls (Str.take j s) = true.
Proof.
  revert s. induction j as [|j IH]; intros [|c s] H; simpl in *; try done.
  destruct (cls c) eqn:E; [|lia]. simpl. apply IH. lia.
Qed.

Lemma span_app_stops (cls : ascii → bool) (p r : string) :
  Str.all cls p = true → stops cls r → Str.span cls (p +:+ r) = String.length p.
Proof.
  intros Hp Hr. induction p as [|c p IH].
  - destruct r as [|c r]; [done|]. simpl in *. by rewrite Hr.
  - rewrite app_cons. simpl in *. apply andb_true_iff in Hp as [-> Hp].
    by rewrite IH.
Qed.

Lemma drop_all_empty (j : nat) (s : string) :
  Str.drop j s = "" → Str.take j s = s.
Proof.
  intros H. rewrite <- (take_drop_str j s) at 2. by rewrite H, app_empty_r.
Qed.

Lemma take_nonempty (j : nat) (s : string) :
  1 ≤ j → j ≤ String.length s → Str.take j s ≠ "".
Proof. destruct j, s; simpl; try done; lia. Qed.

End StrFacts.

(** ** The matcher *)

Section ReFacts.

Local Open Scope nat_scope.

Lemma backtrack_hit {R} (lo : nat) (try : nat → option R) (j : nat) (r : R) :
  lo ≤ j → try j = Some r → Re.backtrack lo try j = Some r.
Proof.
  intros Hlo Hj. destruct j; simpl.
  - destruct lo; [|lia]. simpl. by rewrite Hj.
  - destruct (S j <? lo) eqn:E; [apply Nat.ltb_lt in E; lia|]. by rewrite Hj.
Qed.

Lemma backtrack_sound {R} (lo : nat) (try : nat → option R) (j : nat) (r : R) :
  Re.backtrack lo try j = Some r → ∃ i, lo ≤ i ≤ j ∧ try i = Some r.
Proof.
  induction j as [|j IH]; simpl.
  - destruct (0 <? lo) eqn:E; [done|]. apply Nat.ltb_ge in E.
    destruct (try 0) eqn:T; [|done]. intros [= <-]. exists 0. split; [lia|done].
  - destruct (S j <? lo) eqn:E; [done|]. apply Nat.ltb_ge in E.
    destruct (try (S j)) eqn:T.
    + intros [= <-]. exists (S j). split; [lia|done].
    + intros H. destruct (IH H) as (i & Hi & Ht). exists i. split; [lia|done].
Qed.

Lemma backtrack_none {R} (lo : nat) (try : nat → option R) (j : nat) :
  (∀ i, lo ≤ i ≤ j → try i = None) → Re.backtrack lo try j = None.
Proof.
  intros H. destruct (Re.backtrack lo try j) eqn:E; [|done].
  apply backtrack_sound in E as (i & Hi & Ht). rewrite H in Ht; done.
Qed.

End ReFacts.

(** ** [RbeProjectFromInstance] *)

Example RbeProjectFromInstance_ex1 :
  RbeProjectFromInstance "projects/rbe-chrome-untrusted/instances/default_instance"
  = Some "rbe-chrome-untrusted".
Proof. reflexivity. Qed.

Example RbeProjectFromInstance_ex2 :
  RbeProjectFromInstance "projects/p/instances/i/extra" = None.
Proof. reflexivity. Qed.

Example RbeProjectFromInstance_ex3 :
  RbeProjectFromInstance "projects//instances/i" = None.
Proof. reflexivity. Qed.

Section InstanceFacts.

Local Open Scope nat_scope.

Lemma span_all (cls : ascii → bool) (s : string) :
  Str.all cls s = true → Str.span cls s = String.length s.
Proof.
  intros H. rewrite <- (app_empty_r s) at 1. by apply span_app_stops.
Qed.

Lemma drop_length (s : string) : Str.drop (String.length s) s = "".
Proof. rewrite <- (app_empty_r s) at 2. apply str_drop_app. Qed.

Lemma nonempty_length (s : string) : s ≠ "" → 1 ≤ String.length s.
Proof. destruct s; simpl; [done|lia]. Qed.

Lemma instance_form_matches (P I : string) :
  P ≠ "" → I ≠ "" →
  Str.all Re.word_or_hyphen P = true → Str.all Re.word_or_hyphen I = true →
  Re.fullmatch instance_re ("projects/" +:+ P +:+ "/instances/" +:+ I)
  = Some (Some P).
Proof.
  intros HP HI HPw HIw.
  unfold Re.fullmatch, instance_re. cbn [Re.exec].
  rewrite startswith_app, str_drop_app.
  rewrite span_app_stops by done.
  apply backtrack_hit; [by apply nonempty_length|].
  rewrite str_drop_app, startswith_app, str_drop_app.
  rewrite (span_all _ I) by done.
  apply backtrack_hit; [by apply nonempty_length|].
  rewrite drop_length. cbn [Str.is_empty].
  do 2 f_equal.
  replace (0 + String.length "projects/" + String.length P - (0 + String.length "projects/"))
    with (String.length P) by lia.
  apply str_take_app.
Qed.

Lemma instance_match_form (instance : string) (g : Re.found) :
  Re.fullmatch instance_re instance = Some g →
  ∃ P I, instance_form P I instance ∧ g = Some P.
Proof.
  unfold Re.fullmatch, instance_re. cbn [Re.exec].
  destruct (Str.startswith "projects/" instance) eqn:E1; [|done].
  apply startswith_inv in E1.
  set (s1 := Str.drop (String.length "projects/") instance) in *.
  intros H. apply backtrack_sound in H as (j & Hj & H).
  destruct (Str.startswith "/instances/" (Str.drop j s1)) eqn:E2; [|done].
  apply startswith_inv in E2.
  set (s2 := Str.drop (String.length "/instances/") (Str.drop j s1)) in *.
  apply backtrack_sound in H as (i & Hi & H).
  destruct (Str.is_empty (Str.drop i s2)) eqn:E3; [|done].
  apply is_empty_true in E3. injection H as <-.
  pose proof (span_le_length Re.word_or_hyphen s1).
  pose proof (span_le_length Re.word_or_hyphen s2).
  exists (Str.take j s1), s2. split.
  - repeat split.
    + rewrite E1 at 1. f_equal. rewrite <- E2. by rewrite take_drop_str.
    + apply take_nonempty; lia.
    + rewrite <- (drop_all_empty i s2 E3). apply take_nonempty; lia.
    + apply all_take_span. lia.
    + rewrite <- (drop_all_empty i s2 E3). apply all_take_span. lia.
  - do 2 f_equal. lia.
Qed.

End InstanceFacts.

(** C3. An instance string [projects/P/instances/I], with [P] and [I]
  non-empty strings of word characters and hyphens, has project [P]; a
  string of no such form has none. *)
Theorem RbeProjectFromInstance_spec (instance : string) :
  (∀ P I, instance_form P I instance → RbeProjectFromInstance instance = Some P)
  ∧ ((∀ P I, ¬ instance_form P I instance) → RbeProjectFromInstance instance = None).
Proof.
  unfold RbeProjectFromInstance. split.
  - intros P I (-> & HP & HI & HPw & HIw).
    by rewrite instance_form_matches.
  - intros Hno. destruct (Re.fullmatch instance_re instance) as [g|] eqn:E; [|done].
    apply instance_match_form in E as (P & I & Hform & _).
    by destruct (Hno P I).
Qed.

Lemma RbeProjectFromInstance_spec_witness :
  RbeProjectFromInstance "projects/rbe-chrome/instances/default_instance" = Some "rbe-chrome"
  ∧ RbeProjectFromInstance "rbe-chrome/default_instance" = None.
Proof.
  split.
  - apply (proj1 (RbeProjectFromInstance_spec _) "rbe-chrome" "default_instance").
    unfold instance_form. repeat split; done.
  - apply (proj2 (RbeProjectFromInstance_spec "rbe-chrome/default_instance")).
    intros P I (H & _). discriminate H.
Defined.

(** ** [NaclRevision] *)

Example parse_commit_ok :
  parse_commit ("src/native_client: https://x@" +:+ Demo.a40) = Return Demo.a40.
Proof. vm_compute. reflexivity. Qed.

Example parse_commit_short :
  parse_commit "src/native_client: https://x@abcdef"
  = Raise (ValueError "invalid commit hash").
Proof. vm_compute. reflexivity. Qed.

Example parse_commit_no_at : parse_commit "src/native_client: None" = Raise IndexError.
Proof. vm_compute. reflexivity. Qed.

Section CommitFacts.

Local Open Scope nat_scope.

Lemma span_drop (cls : ascii → bool) (j : nat) (s : string) :
  j < Str.span cls s → ∃ c s', Str.drop j s = String c s' ∧ cls c = true.
Proof.
  revert s. induction j as [|j IH]; intros [|c s] H; simpl in H; try lia.
  - destruct (cls c) eqn:E; [|lia]. by exists c, s.
  - destruct (cls c) eqn:E; [|lia]. apply IH. lia.
Qed.

(** What [^[0-9a-f]{40,}$] accepts: forty or more hex digits, and nothing
    or one newline behind them. *)
Lemma commit_re_accepts (commit : string) :
  Re.match_ commit_re commit = Some None
  ↔ ∃ h, 40 ≤ String.length h ∧ Str.all Re.hex_lower h = true
         ∧ (commit = h ∨ commit = h +:+ nl).
Proof.
  unfold Re.match_, commit_re. cbn [Re.exec Nat.eqb]. split.
  - intros H. apply backtrack_sound in H as (j & Hj & H).
    destruct (Str.is_empty (Str.drop j commit) || String.eqb (Str.drop j commit) Str.nl)
      eqn:E; [|done].
    exists (Str.take j commit).
    pose proof (span_le_length Re.hex_lower commit).
    split; [rewrite length_take_str; lia|].
    split; [apply all_take_span; lia|].
    rewrite <- (take_drop_str j commit) at 1 3.
    apply orb_true_iff in E as [E|E].
    + apply is_empty_true in E. rewrite E, app_empty_r. by left.
    + apply String.eqb_eq in E. rewrite E. by right.
  - intros (h & Hlen & Hall & [->| ->]).
    + rewrite (span_all _ _ Hall). apply backtrack_hit; [done|].
      by rewrite drop_length.
    + rewrite span_app_stops by done. apply backtrack_hit; [done|].
      by rewrite str_drop_app.
Qed.

Lemma commit_re_result (commit : string) :
  Re.match_ commit_re commit = Some None ∨ Re.match_ commit_re commit = None.
Proof.
  unfold Re.match_, commit_re. cbn [Re.exec Nat.eqb].
  destruct (Re.backtrack _ _ _) as [g|] eqn:E; [|by right].
  apply backtrack_sound in E as (j & _ & E).
  destruct (_ || _); [|done]. injection E as <-. by left.
Qed.

(** The [try] of [NaclRevision] returns the second [@]-field when the
    pattern accepts it, and raises one of the two exceptions that are caught
    otherwise. *)
Lemma parse_commit_cases (revinfo : string) :
  match parse_commit revinfo with
  | Return commit =>
      Str.split "@" revinfo !! 1 = Some commit
      ∧ ∃ h, 40 ≤ String.length h ∧ Str.all Re.hex_lower h = true
             ∧ (commit = h ∨ commit = h +:+ nl)
  | Raise IndexError => Str.split "@" revinfo !! 1 = None
  | Raise (ValueError _) =>
      ∃ commit, Str.split "@" revinfo !! 1 = Some commit
                ∧ Re.match_ commit_re commit = None
  | Raise _ => False
  end.
Proof.
  unfold parse_commit.
  destruct (Str.split "@" revinfo !! 1) as [commit|]; [|done].
  destruct (commit_re_result commit) as [E|E]; rewrite E.
  - split; [done|]. by apply commit_re_accepts.
  - by exists commit.
Qed.

End CommitFacts.

(** In a checkout without [.git], once [gclient revinfo] has succeeded
    [NaclRevision] returns: the commit, or [None] after a warning. *)
Lemma NaclRevision_fallback (host : Host) (w : World) :
  let nacl_dir := Path.join (CHROMIUM_SRC host) "native_client" in
  let r := (spawn host (revinfo_command host) w).1 in
  Fs.exists_ (Path.join nacl_dir "README.md") (files w) = true →
  Fs.isdir (Path.join nacl_dir ".git") (files w) = false →
  returncode r = 0 →
  match parse_commit (Str.strip (stdout r)) with
  | Return commit => (NaclRevision host w).1 = Return (Some commit)
  | Raise _ =>
      (NaclRevision host w).1 = Return None
      ∧ List.existsb Demo.is_warning (events (NaclRevision host w).2) = true
  end.
Proof.
  intros nacl_dir r Hreadme Hgit Hrc. subst r.
  unfold NaclRevision. fold nacl_dir. fold (revinfo_command host).
  unfold run_checked, run. run_monad. rewrite Hreadme, Hgit. cbn [negb].
  destruct (spawn host (revinfo_command host) w) as [r fs]. cbn [fst] in *.
  rewrite Hrc. cbn [Z.eqb].
  pose proof (parse_commit_cases (Str.strip (stdout r))) as Hcases.
  destruct (parse_commit (Str.strip (stdout r))) as [commit|e]; [done|].
  destruct e; try done; cbn [fst snd events]; (split; [done|]);
    rewrite !existsb_app; cbn; by rewrite !orb_true_r.
Qed.

(** C1. On [gclient revinfo] output whose second [@]-field is forty hex
  digits followed by a newline, [NaclRevision] returns that field, newline
  included, and logs no warning, although the field is not a string of hex
  digits: [$] in the pattern also matches before a final newline. *)
Theorem NaclRevision_accepts_trailing_newline :
  let out := "src/native_client: https://x@" +:+ Demo.a40 +:+ nl +:+ "@" in
  let r := NaclRevision (Demo.linux "v" (Demo.answers out)) Demo.exported_nacl in
  Str.split "@" (Str.strip out) !! 1%nat = Some (Demo.a40 +:+ nl)
  ∧ Str.all Re.hex_lower (Demo.a40 +:+ nl) = false
  ∧ r.1 = Return (Some (Demo.a40 +:+ nl))
  ∧ List.existsb Demo.is_warning (events r.2) = false.
Proof. vm_compute. repeat split; reflexivity. Qed.

(** ** [CipdEnsure] *)

Section CipdEnsureFacts.

Context (host : Host).

Lemma CipdEnsure_unfold (pkg_name ref directory : string) (quiet : bool) (w : World) :
  CipdEnsure host pkg_name ref directory quiet w
  = let r := ensure_answer host pkg_name ref directory quiet w in
    let w1 := ensure_done host pkg_name ref directory quiet w in
    if returncode r =? 0 then logging INFO (stdout r) w1
    else match IsCipdLoggedIn host w1 with
         | (Return logged_in, w2) =>
             if negb logged_in then (Raise (CipdAuthError (stdout r)), w2)
             else (Raise (CipdError (stdout r)), w2)
         | (Raise e, w2) => (Raise e, w2)
         end.
Proof.
  unfold CipdEnsure, ensure_answer, ensure_done, ensure_started, bind, print, emit, run.
  cbn [files events].
  destruct (spawn host _ _) as [r fs] eqn:E. cbn [fst snd].
  destruct (returncode r =? 0); [done|].
  destruct (IsCipdLoggedIn host _) as [[[]|e] w2]; done.
Qed.

Lemma IsCipdLoggedIn_returns (w : World) :
  ∃ ps w', IsCipdLoggedIn host w = (Return (returncode ps =? 0), w')
           ∧ In (Spawn {| cmd_args := ["cipd"; "auth-info"]; cmd_shell := true;
                          cmd_cwd := None; cmd_env := None; cmd_input := None |} ps)
                (events w').
Proof.
  unfold IsCipdLoggedIn, bind, run, logging, emit, ret. cbn [files events].
  destruct (spawn host _ w) as [ps fs]. eexists ps, _. split; [reflexivity|].
  cbn [events]. rewrite !in_app_iff. left. left. right. by left.
Qed.

End CipdEnsureFacts.

(** C2. [CipdEnsure] returns normally when the ensure command succeeds; when
  it fails, the error raised is [CipdAuthError] if [IsCipdLoggedIn] then
  reports false (the probe ended with a nonzero code) and [CipdError] if it
  reports true; either error carries the output of the failed command. *)
Theorem CipdEnsure_outcomes (host : Host) (pkg_name ref directory : string)
    (quiet : bool) (w : World) :
  let r := ensure_answer host pkg_name ref directory quiet w in
  let w1 := ensure_done host pkg_name ref directory quiet w in
  (returncode r = 0 →
     (CipdEnsure host pkg_name ref directory quiet w).1 = Return tt)
  ∧ (returncode r ≠ 0 → (IsCipdLoggedIn host w1).1 = Return false →
     (CipdEnsure host pkg_name ref directory quiet w).1
     = Raise (CipdAuthError (stdout r)))
  ∧ (returncode r ≠ 0 → (IsCipdLoggedIn host w1).1 = Return true →
     (CipdEnsure host pkg_name ref directory quiet w).1
     = Raise (CipdError (stdout r)))
  ∧ (∃ ps, (IsCipdLoggedIn host w1).1 = Return (returncode ps =? 0)).
Proof.
  intros r w1. rewrite CipdEnsure_unfold. fold r w1. cbv zeta.
  repeat split.
  - intros ->. reflexivity.
  - intros Hr Hp. apply Z.eqb_neq in Hr. rewrite Hr.
    destruct (IsCipdLoggedIn host w1) as [[b|e] w2]; cbn in Hp; by simplify_eq.
  - intros Hr Hp. apply Z.eqb_neq in Hr. rewrite Hr.
    destruct (IsCipdLoggedIn host w1) as [[b|e] w2]; cbn in Hp; by simplify_eq.
  - destruct (IsCipdLoggedIn_returns host w1) as (ps & w' & -> & _). by exists ps.
Qed.

Lemma CipdEnsure_outcomes_witness :
  (CipdEnsure (Demo.linux "v" (Demo.answers "ok")) "p/python" "revision/3.8.0"
     "/b/python" false Demo.empty_world).1 = Return tt
  ∧ (CipdEnsure (Demo.linux "v" (Demo.cipd_down 1 "denied")) "p/python"
       "revision/3.8.0" "/b/python" false Demo.empty_world).1
    = Raise (CipdAuthError "denied")
  ∧ (CipdEnsure (Demo.linux "v" (Demo.cipd_down 0 "no such package")) "p/python"
       "revision/3.8.0" "/b/python" false Demo.empty_world).1
    = Raise (CipdError "no such package").
Proof.
  split; [|split].
  - apply (CipdEnsure_outcomes (Demo.linux "v" (Demo.answers "ok"))). reflexivity.
  - apply (CipdEnsure_outcomes (Demo.linux "v" (Demo.cipd_down 1 "denied"))).
    + vm_compute. discriminate.
    + vm_compute. reflexivity.
  - apply (CipdEnsure_outcomes (Demo.linux "v" (Demo.cipd_down 0 "no such package"))).
    + vm_compute. discriminate.
    + vm_compute. reflexivity.
Defined.

(** ** [GenerateReproxyCfg] *)

Section GenerateFacts.

Context (host : Host).

Lemma GenerateReproxyCfg_missing (t inst : string) (proj : option string) (w : World) :
  Fs.isfile (tmpl_path host t) (files w) = false →
  GenerateReproxyCfg host t inst proj w
  = (Return false,
     {| files := files w;
        events := (events w
                   ++ [Log INFO ("generate reproxy.cfg using " +:+ tmpl_path host t)])
                  ++ [Log WARNING (tmpl_path host t +:+ " does not exist")] |}).
Proof.
  unfold Fs.isfile, GenerateReproxyCfg, bind, logging, emit, get_files, ret.
  cbn [files events]. intros H.
  destruct (files w !! tmpl_path host t) as [[content m|m]|]; done.
Qed.

Lemma GenerateReproxyCfg_present (t inst : string) (proj : option string) (w : World)
    (content : string) (m : Z) :
  files w !! tmpl_path host t = Some (File content m) →
  GenerateReproxyCfg host t inst proj w
  = match Template.substitute (REPROXY_CFG_HEADER +:+ content)
            (template_context host t inst proj) with
    | Return cfg =>
        (Return true,
         {| files := Fs.write (reproxy_cfg_path host) cfg (files w);
            events := events (generate_started (tmpl_path host t) w)
                      ++ [WriteFile (reproxy_cfg_path host) cfg] |})
    | Raise e => (Raise e, generate_started (tmpl_path host t) w)
    end.
Proof.
  unfold GenerateReproxyCfg, bind, logging, emit, get_files, ret, lift, write_file,
    set_files, generate_started.
  cbn [files events]. intros ->.
  destruct (Template.substitute _ _); done.
Qed.

Lemma read_file_node (p : string) (fs : gmap string node) (content : string) :
  Fs.read p fs = Some content ↔ ∃ m, fs !! p = Some (File content m).
Proof.
  unfold Fs.read. destruct (fs !! p) as [[d m|m]|]; split.
  - intros [= ->]. by exists m.
  - by intros [m' [= -> _]].
  - done.
  - by intros [m' ?].
  - done.
  - by intros [m' ?].
Qed.

Lemma read_write (p data : string) (fs : gmap string node) :
  Fs.read p (Fs.write p data fs) = Some data.
Proof.
  unfold Fs.read, Fs.write.
  destruct (fs !! p) as [[d m|m]|]; by rewrite lookup_insert_eq.
Qed.

Lemma GenerateReproxyCfg_true (t inst : string) (proj : option string) (w w1 : World) :
  GenerateReproxyCfg host t inst proj w = (Return true, w1) →
  ∃ content cfg,
    Fs.read (tmpl_path host t) (files w) = Some content
    ∧ Template.substitute (REPROXY_CFG_HEADER +:+ content)
        (template_context host t inst proj) = Return cfg
    ∧ files w1 = Fs.write (reproxy_cfg_path host) cfg (files w).
Proof.
  intros H.
  destruct (files w !! tmpl_path host t) as [[content m|m]|] eqn:E.
  - rewrite (GenerateReproxyCfg_present _ _ _ _ content m E) in H.
    destruct (Template.substitute _ _) as [cfg|e] eqn:S; [|done].
    injection H as <-. exists content, cfg.
    split; [apply read_file_node; by exists m|]. by split.
  - rewrite GenerateReproxyCfg_missing in H; [done|]. unfold Fs.isfile. by rewrite E.
  - rewrite GenerateReproxyCfg_missing in H; [done|]. unfold Fs.isfile. by rewrite E.
Qed.

Lemma GenerateReproxyCfg_renders (t inst : string) (proj : option string) (w : World)
    (content cfg : string) :
  Fs.read (tmpl_path host t) (files w) = Some content →
  Template.substitute (REPROXY_CFG_HEADER +:+ content)
    (template_context host t inst proj) = Return cfg →
  ∃ w', GenerateReproxyCfg host t inst proj w = (Return true, w')
        ∧ Fs.read (reproxy_cfg_path host) (files w') = Some cfg.
Proof.
  intros [m Hm]%read_file_node S.
  rewrite (GenerateReproxyCfg_present _ _ _ _ content m Hm), S.
  eexists. split; [reflexivity|]. cbn [files]. apply read_write.
Qed.

End GenerateFacts.

(** C7. With the template file's content fixed, a second call of
    [GenerateReproxyCfg] with the same arguments on the same machine leaves
    at the output path exactly what the first call left there; what a call
    leaves there is the same whatever the file held before. *)
Theorem GenerateReproxyCfg_idempotent (host : Host) (t inst : string)
    (proj : option string) (w w1 : World) :
  GenerateReproxyCfg host t inst proj w = (Return true, w1) →
  Fs.read (tmpl_path host t) (files w1) = Fs.read (tmpl_path host t) (files w) →
  ∃ rendered w2,
    GenerateReproxyCfg host t inst proj w1 = (Return true, w2)
    ∧ Fs.read (reproxy_cfg_path host) (files w1) = Some rendered
    ∧ Fs.read (reproxy_cfg_path host) (files w2) = Some rendered
    ∧ ∀ w',
        Fs.read (tmpl_path host t) (files w') = Fs.read (tmpl_path host t) (files w) →
        ∃ w'', GenerateReproxyCfg host t inst proj w' = (Return true, w'')
               ∧ Fs.read (reproxy_cfg_path host) (files w'') = Some rendered.
Proof.
  intros H1 Hsame.
  destruct (GenerateReproxyCfg_true host _ _ _ _ _ H1) as (content & cfg & Hr & S & Hf).
  rewrite Hr in Hsame.
  destruct (GenerateReproxyCfg_renders host t inst proj w1 content cfg Hsame S)
    as (w2 & H2 & Hout2).
  exists cfg, w2. repeat split; [done| |done|].
  - rewrite Hf. apply read_write.
  - intros w' Hw'. rewrite Hr in Hw'.
    by apply (GenerateReproxyCfg_renders host t inst proj w' content cfg).
Qed.

Lemma GenerateReproxyCfg_idempotent_witness :
  let h := Demo.linux "v" (Demo.answers "") in
  let w := Demo.templated "instance=$rbe_instance" in
  let w1 := (GenerateReproxyCfg h "linux.cfg" "projects/p/instances/i" (Some "p") w).2 in
  ∃ rendered w2,
    GenerateReproxyCfg h "linux.cfg" "projects/p/instances/i" (Some "p") w1
    = (Return true, w2)
    ∧ Fs.read (reproxy_cfg_path h) (files w1) = Some rendered
    ∧ Fs.read (reproxy_cfg_path h) (files w2) = Some rendered
    ∧ ∀ w',
        Fs.read (tmpl_path h "linux.cfg") (files w')
        = Fs.read (tmpl_path h "linux.cfg") (files w) →
        ∃ w'', GenerateReproxyCfg h "linux.cfg" "projects/p/instances/i" (Some "p") w'
               = (Return true, w'')
               ∧ Fs.read (reproxy_cfg_path h) (files w'') = Some rendered.
Proof.
  intros h w w1.
  apply (GenerateReproxyCfg_idempotent h "linux.cfg" "projects/p/instances/i"
           (Some "p") w w1).
  - vm_compute. reflexivity.
  - vm_compute. reflexivity.
Defined.

(** ** Placeholders outside the five names *)

Section PlaceholderFacts.

Context (host : Host) (t inst : string) (proj : option string).

Lemma context_unknown (id : string) :
  id ∉ template_keys → template_context host t inst proj !! id = None.
Proof.
  unfold template_keys, template_context. intros H.
  rewrite !not_elem_of_cons in H. destruct H as (?&?&?&?&?&_).
  by rewrite !lookup_insert_ne.
Qed.

Lemma context_known (id : string) :
  id ∈ template_keys → is_Some (template_context host t inst proj !! id).
Proof.
  unfold template_keys, template_context. rewrite !elem_of_cons, elem_of_nil.
  intros [->|[->|[->|[->|[->|[]]]]]]; by simplify_map_eq.
Qed.

Lemma convert_offending (tok : Template.token) :
  offending tok = true →
  Template.convert (template_context host t inst proj) tok = Raise (offence tok).
Proof.
  destruct tok as [c| |id|id|]; cbn; try done.
  - intros H%negb_true_iff%bool_decide_eq_false. by rewrite context_unknown.
  - intros H%negb_true_iff%bool_decide_eq_false. by rewrite context_unknown.
Qed.

Lemma convert_fine (tok : Template.token) :
  offending tok = false →
  ∃ piece, Template.convert (template_context host t inst proj) tok = Return piece.
Proof.
  destruct tok as [c| |id|id|]; cbn; try done; eauto.
  - intros H%negb_false_iff%bool_decide_eq_true.
    destruct (context_known id H) as [v ->]. eauto.
  - intros H%negb_false_iff%bool_decide_eq_true.
    destruct (context_known id H) as [v ->]. eauto.
Qed.

(** [render] fails with the exception of the first offending occurrence,
    and succeeds when there is none. *)
Lemma render_first_offence (ts : list Template.token) :
  match List.find offending ts with
  | Some tok =>
      Template.render (template_context host t inst proj) ts = Raise (offence tok)
  | None =>
      ∃ out, Template.render (template_context host t inst proj) ts = Return out
  end.
Proof.
  induction ts as [|tok ts IH]; cbn [List.find Template.render]; [eauto|].
  destruct (offending tok) eqn:E.
  - by rewrite convert_offending.
  - destruct (convert_fine tok E) as [piece ->].
    destruct (List.find offending ts) as [bad|].
    + by rewrite IH.
    + destruct IH as [out ->]. eauto.
Qed.

End PlaceholderFacts.

(** ** The banner in front of the template *)

Section HeaderFacts.

Local Open Scope nat_scope.

Lemma length_drop_le (k : nat) (s : string) :
  String.length (Str.drop k s) ≤ String.length s.
Proof.
  revert s. induction k as [|k IH]; intros [|c s]; simpl; try lia.
  specialize (IH s). lia.
Qed.

(** Fuel beyond the length of the text changes nothing. *)
Lemma scan_fuel (n m : nat) (s : string) :
  String.length s ≤ n → String.length s ≤ m →
  Template.scan n s = Template.scan m s.
Proof.
  revert m s. induction n as [|n IH]; intros m s Hn Hm.
  - destruct s; simpl in Hn; [|lia]. by destruct m.
  - destruct s as [|c s1]; [by destruct m|].
    destruct m as [|m]; simpl in Hn, Hm; [lia|].
    cbn [Template.scan].
    destruct (Str.eqc c "$"); [|f_equal; apply IH; lia].
    destruct s1 as [|c1 s2]; [done|]. simpl in Hn, Hm.
    destruct (Str.eqc c1 "$"); [f_equal; apply IH; lia|].
    destruct (Str.eqc c1 "{").
    + destruct (_ && _).
      * f_equal. pose proof (length_drop_le (S (Template.ident_len s2)) s2).
        apply IH; lia.
      * f_equal. apply IH; simpl; lia.
    + destruct (0 <? _).
      * f_equal.
        assert (String.length
                  (Str.drop (Template.ident_len (String c1 s2)) (String c1 s2))
                ≤ S (String.length s2)) by apply (length_drop_le _ (String c1 s2)).
        apply IH; lia.
      * f_equal. apply IH; simpl; lia.
Qed.

Lemma tokens_text (c : ascii) (s : string) :
  Str.eqc c "$" = false →
  Template.tokens (String c s) = Template.Text c :: Template.tokens s.
Proof. intros H. unfold Template.tokens. simpl. by rewrite H. Qed.

Lemma scan_dollar (n : nat) (c1 : ascii) (s2 : string) :
  Template.scan (S n) (String "$" (String c1 s2))
  = if Str.eqc c1 "$" then Template.Escaped :: Template.scan n s2
    else if Str.eqc c1 "{" then
      if (0 <? Template.ident_len s2)
         && Str.startswith "}" (Str.drop (Template.ident_len s2) s2)
      then Template.Braced (Str.take (Template.ident_len s2) s2)
           :: Template.scan n (Str.drop (S (Template.ident_len s2)) s2)
      else Template.Invalid :: Template.scan n (String c1 s2)
    else
      if 0 <? Template.ident_len (String c1 s2)
      then Template.Named (Str.take (Template.ident_len (String c1 s2)) (String c1 s2))
           :: Template.scan n (Str.drop (Template.ident_len (String c1 s2)) (String c1 s2))
      else Template.Invalid :: Template.scan n (String c1 s2).
Proof. reflexivity. Qed.

Lemma tokens_named (c1 : ascii) (s2 : string) :
  Str.eqc c1 "$" = false → Str.eqc c1 "{" = false →
  (0 <? Template.ident_len (String c1 s2)) = true →
  Template.tokens (String "$" (String c1 s2))
  = Template.Named (Str.take (Template.ident_len (String c1 s2)) (String c1 s2))
    :: Template.tokens (Str.drop (Template.ident_len (String c1 s2)) (String c1 s2)).
Proof.
  intros H1 H2 H3. unfold Template.tokens.
  change (String.length (String "$" (String c1 s2))) with (S (S (String.length s2))).
  rewrite scan_dollar, H1, H2, H3. f_equal.
  assert (String.length
            (Str.drop (Template.ident_len (String c1 s2)) (String c1 s2))
          ≤ S (String.length s2)) by apply (length_drop_le _ (String c1 s2)).
  apply scan_fuel; lia.
Qed.

Lemma tokens_header (content : string) :
  Template.tokens (REPROXY_CFG_HEADER +:+ content)
  = Template.tokens REPROXY_CFG_HEADER ++ Template.tokens content.
Proof.
  cbv [REPROXY_CFG_HEADER nl Str.nl String.append].
  repeat (rewrite tokens_text by reflexivity).
  rewrite tokens_named by reflexivity.
  cbn [Template.ident_len Template.id_start Template.id_char Template.letter
         Str.span Str.take Str.drop Str.eqc Str.in_range].
  simpl.
  repeat (rewrite tokens_text by reflexivity).
  reflexivity.
Qed.

End HeaderFacts.

Lemma header_fine : List.find offending (Template.tokens REPROXY_CFG_HEADER) = None.
Proof. vm_compute. reflexivity. Qed.

Lemma find_app_none {A} (f : A → bool) (l1 l2 : list A) :
  List.find f l1 = None → List.find f (l1 ++ l2) = List.find f l2.
Proof.
  induction l1 as [|x l1 IH]; [done|]. cbn. destruct (f x); [done|]. apply IH.
Qed.

Lemma unknown_found (ts : list Template.token) :
  existsb unknown_placeholder ts = true → ∃ tok, List.find offending ts = Some tok.
Proof.
  intros (x & Hin & Hx)%existsb_exists.
  destruct (List.find offending ts) as [tok|] eqn:E; [eauto|].
  pose proof (find_none _ _ E x Hin) as Hoff.
  unfold offending in Hoff. rewrite Hx in Hoff. by destruct (is_invalid x).
Qed.

(** C10. A template file with a placeholder outside the five names makes
    [GenerateReproxyCfg] raise the exception of the first occurrence that
    [substitute] fails on, with nothing written: a [KeyError] naming a
    placeholder outside the five when the file has no invalid [$], and in
    general that or the [ValueError] of an invalid [$] that comes first. *)
Theorem GenerateReproxyCfg_unknown_placeholder (host : Host) (t inst : string)
    (proj : option string) (w : World) (content : string) :
  Fs.read (tmpl_path host t) (files w) = Some content →
  existsb unknown_placeholder (Template.tokens content) = true →
  ∃ tok w',
    List.find offending (Template.tokens content) = Some tok
    ∧ GenerateReproxyCfg host t inst proj w = (Raise (offence tok), w')
    ∧ files w' = files w
    ∧ List.existsb changes_files (drop (length (events w)) (events w')) = false
    ∧ (existsb is_invalid (Template.tokens content) = false →
       ∃ k, (k ∉ template_keys) ∧ offence tok = KeyError k).
Proof.
  intros [m Hm]%read_file_node Hunknown.
  destruct (unknown_found _ Hunknown) as [tok Htok].
  exists tok, (generate_started (tmpl_path host t) w).
  split; [done|]. split; [|split; [done|]; split].
  - rewrite (GenerateReproxyCfg_present host t inst proj w content m Hm).
    unfold Template.substitute.
    pose proof (render_first_offence host t inst proj
                  (Template.tokens (REPROXY_CFG_HEADER +:+ content))) as R.
    rewrite tokens_header, (find_app_none _ _ _ header_fine), Htok in R.
    rewrite tokens_header. by rewrite R.
  - cbn [generate_started events]. by rewrite drop_app_length.
  - intros Hvalid. apply find_some in Htok as [Hin Hoff].
    assert (is_invalid tok = false) as Hinv.
    { destruct (is_invalid tok) eqn:E; [|done].
      assert (existsb is_invalid (Template.tokens content) = true) as Hex
        by (apply existsb_exists; eauto).
      by rewrite Hex in Hvalid. }
    unfold offending in Hoff. rewrite Hinv in Hoff. cbn in Hoff.
    destruct tok as [c| |id|id|]; try done; cbn in Hoff;
      apply negb_true_iff, bool_decide_eq_false in Hoff; by exists id.
Qed.

Lemma GenerateReproxyCfg_unknown_placeholder_witness :
  ∃ tok w',
    List.find offending (Template.tokens "instance=$rbe_instance x=$bogus") = Some tok
    ∧ GenerateReproxyCfg (Demo.linux "v" (Demo.answers "")) "linux.cfg" "i" (Some "p")
        (Demo.templated "instance=$rbe_instance x=$bogus")
      = (Raise (offence tok), w')
    ∧ files w' = files (Demo.templated "instance=$rbe_instance x=$bogus")
    ∧ List.existsb changes_files
        (drop (length (events (Demo.templated "instance=$rbe_instance x=$bogus")))
           (events w')) = false
    ∧ (existsb is_invalid (Template.tokens "instance=$rbe_instance x=$bogus") = false →
       ∃ k, (k ∉ template_keys) ∧ offence tok = KeyError k).
Proof.
  apply (GenerateReproxyCfg_unknown_placeholder (Demo.linux "v" (Demo.answers ""))
           "linux.cfg" "i" (Some "p")
           (Demo.templated "instance=$rbe_instance x=$bogus")
           "instance=$rbe_instance x=$bogus").
  - vm_compute. reflexivity.
  - vm_compute. reflexivity.
Defined.

(** Not every placeholder outside the five names ends in a [KeyError]: a
    template that holds the placeholder [$bogus] behind an invalid [$] makes
    [GenerateReproxyCfg] raise [ValueError]. *)
Lemma GenerateReproxyCfg_unknown_placeholder_ValueError :
  let r := GenerateReproxyCfg (Demo.linux "v" (Demo.answers "")) "linux.cfg" "i"
             (Some "p") (Demo.templated "price: 5$ $bogus") in
  Fs.isfile (tmpl_path (Demo.linux "v" (Demo.answers "")) "linux.cfg")
    (files (Demo.templated "price: 5$ $bogus")) = true
  ∧ existsb unknown_placeholder (Template.tokens "price: 5$ $bogus") = true
  ∧ r.1 = Raise (ValueError "Invalid placeholder in string")
  ∧ ¬ ∃ k, r.1 = Raise (KeyError k).
Proof.
  vm_compute. repeat split; try reflexivity. intros [k H]. discriminate H.
Qed.

(** ** [main] and a missing template *)

Lemma truthy_Some (s : string) : s ≠ "" → Str.truthy (Some s) = true.
Proof. by destruct s. Qed.

(** C4. When a template name is given and no such template file exists,
    [GenerateReproxyCfg] returns [False] after a warning and writes nothing,
    and [main] returns 1 without having started a process or changed a
    file: the fetch is never entered. *)
Theorem missing_template_stops_run (host : Host) (args : Args) (t : string) (w : World) :
  reproxy_cfg_template args = Some t → t ≠ "" →
  Fs.isfile (tmpl_path host t) (files w) = false →
  (∀ inst proj, ∃ w',
      GenerateReproxyCfg host t inst proj w = (Return false, w')
      ∧ files w' = files w
      ∧ In (Log WARNING (tmpl_path host t +:+ " does not exist")) (events w')
      ∧ existsb changes_files (drop (length (events w)) (events w')) = false)
  ∧ (∃ w',
      main host args w = (Return 1, w')
      ∧ files w' = files w
      ∧ existsb is_spawn (drop (length (events w)) (events w')) = false
      ∧ existsb changes_files (drop (length (events w)) (events w')) = false).
Proof.
  intros Ht Hne Hmissing. split.
  - intros inst proj. rewrite GenerateReproxyCfg_missing by done.
    eexists. split; [reflexivity|]. cbn [files events]. split; [done|]. split.
    + rewrite in_app_iff. right. by left.
    + by rewrite <- app_assoc, drop_app_length.
  - unfold main, main_setup, bind, emit, logging, ret, raise. cbn [files events].
    rewrite Ht, (truthy_Some t Hne). cbn [Str.str].
    destruct (Str.truthy (rewrapper_cfg_project args)) eqn:Ep;
      destruct (Str.truthy (rbe_instance args)) eqn:Ei; cbn [negb andb].
    + rewrite GenerateReproxyCfg_missing by done. cbn [negb].
      eexists. split; [reflexivity|]. cbn [files events].
      rewrite <- !app_assoc, drop_app_length. by repeat split.
    + eexists. split; [reflexivity|]. cbn [files events].
      rewrite <- !app_assoc, drop_app_length. by repeat split.
    + destruct (rbe_instance args) as [i|]; [|done].
      rewrite GenerateReproxyCfg_missing by done. cbn [negb].
      eexists. split; [reflexivity|]. cbn [files events].
      rewrite <- !app_assoc, drop_app_length. by repeat split.
    + eexists. split; [reflexivity|]. cbn [files events].
      rewrite <- !app_assoc, drop_app_length. by repeat split.
Qed.

Lemma missing_template_stops_run_witness :
  let h := Demo.linux "v" (Demo.answers "") in
  let args := Demo.flags None (Some "mac.cfg") (Some "projects/p/instances/i") false in
  let w := Demo.templated "instance=$rbe_instance" in
  (∀ inst proj, ∃ w',
      GenerateReproxyCfg h "mac.cfg" inst proj w = (Return false, w')
      ∧ files w' = files w
      ∧ In (Log WARNING (tmpl_path h "mac.cfg" +:+ " does not exist")) (events w')
      ∧ existsb changes_files (drop (length (events w)) (events w')) = false)
  ∧ (∃ w',
      main h args w = (Return 1, w')
      ∧ files w' = files w
      ∧ existsb is_spawn (drop (length (events w)) (events w')) = false
      ∧ existsb changes_files (drop (length (events w)) (events w')) = false).
Proof.
  intros h args w.
  apply (missing_template_stops_run h args "mac.cfg" w).
  - reflexivity.
  - discriminate.
  - vm_compute. reflexivity.
Defined.

(** ** The steps of the loop *)

Section LoopFacts.

Context (host : Host).

Lemma spawned_app (a b : list event) : spawned (a ++ b) = spawned a ++ spawned b.
Proof. unfold spawned. apply omap_app. Qed.

Lemma print_lines_run (lines : list string) (w : World) :
  print_lines lines w
  = (Return tt, {| files := files w; events := events w ++ (Print <$> lines) |}).
Proof.
  revert w. induction lines as [|l ls IH]; intros w.
  - cbn. rewrite app_nil_r. by destruct w.
  - cbn [print_lines]. unfold bind, print, emit. rewrite IH. cbn [files events].
    by rewrite <- app_assoc.
Qed.

Lemma RequestCipdAuthentication_run (w : World) :
  RequestCipdAuthentication w = (Return tt, asked_to_log_in w).
Proof.
  unfold RequestCipdAuthentication, bind, emit, asked_to_log_in.
  rewrite print_lines_run. cbn [files events]. by rewrite <- app_assoc.
Qed.

Lemma calm_app (a b : list event) : calm a → calm b → calm (a ++ b).
Proof. apply Forall_app_2. Qed.

Lemma calm_spawned (new : list event) : calm new → spawned new = [].
Proof.
  induction 1 as [|e new He _ IH]; [done|].
  unfold spawned in *. cbn. destruct e; try done.
Qed.

Lemma calm_no_spawn (new : list event) (c : command) (r : completed) :
  calm new → ¬ In (Spawn c r) new.
Proof.
  intros H Hin. unfold calm in H. rewrite Forall_forall in H.
  apply list_elem_of_In in Hin. by specialize (H _ Hin).
Qed.

Lemma since_app (w : World) (fs : gmap string node) (new : list event) :
  since w {| files := fs; events := events w ++ new |} = new.
Proof. unfold since. cbn [events]. by rewrite drop_app_length. Qed.

Lemma since_refl (w : World) : since w w = [].
Proof. unfold since. by rewrite drop_all. Qed.

Lemma since_events (w w' : World) (new : list event) :
  events w' = events w ++ new → since w w' = new.
Proof. unfold since. intros ->. by rewrite drop_app_length. Qed.

(** *** Calls on the file system *)

(** A call that returns was not refused, did what its model says and is
    entered in the trace. *)
Lemma os_call_Return (call : event) (step : gmap string node → Fs.answer)
    (w w' : World) (u : unit) :
  os_call host call step w = (Return u, w') →
  refuses host call (files w) = None
  ∧ step (files w) = (files w', None)
  ∧ events w' = events w ++ [call].
Proof.
  unfold os_call. destruct (refuses host call (files w)) as [[k fs]|]; [done|].
  destruct (step (files w)) as [fs [k|]]; [done|]. by intros [= _ <-].
Qed.

(** A call that fails raises an [OSError] and leaves the trace alone. *)
Lemma os_call_Raise (call : event) (step : gmap string node → Fs.answer)
    (w w' : World) (e : exn) :
  os_call host call step w = (Raise e, w') →
  (∃ k, e = OSError k) ∧ events w' = events w.
Proof.
  unfold os_call. destruct (refuses host call (files w)) as [[k fs]|].
  - intros [= <- <-]. split; [by exists k|done].
  - destruct (step (files w)) as [fs [k|]]; [|done].
    intros [= <- <-]. split; [by exists k|done].
Qed.

(** Whether it returns or fails, a call starts no process. *)
Lemma os_call_trace (call : event) (step : gmap string node → Fs.answer) (w : World) :
  is_spawn call = false →
  ∃ r w' new,
    os_call host call step w = (r, w')
    ∧ events w' = events w ++ new ∧ calm new
    ∧ (r = Return tt ∨ ∃ k, r = Raise (OSError k)).
Proof.
  intros Hcall. destruct (os_call host call step w) as [[[]|e] w'] eqn:E.
  - apply os_call_Return in E as (_ & _ & Hev).
    exists (Return tt), w', [call]. split; [done|]. split; [done|].
    split; [by repeat constructor|by left].
  - apply os_call_Raise in E as ([k ->] & Hev).
    exists (Raise (OSError k)), w', []. split; [done|].
    split; [by rewrite app_nil_r|]. split; [constructor|]. right. by exists k.
Qed.

(** *** The copy loop *)

(** One round of the loop. *)
Lemma copy_cfgs_cons (dir cfg : string) (rest : list string) (w : World) :
  copy_cfgs host dir (cfg :: rest) w
  = let fname := Path.join dir (Path.basename cfg) in
    match (if Fs.exists_ fname (files w)
           then bind (os_chmod host fname 511) (λ _, os_remove host fname)
           else ret tt) w with
    | (Return _, w1) =>
        match shutil_copy host cfg fname
                {| files := files w1;
                   events := events w1 ++ [copy_note cfg fname] |} with
        | (Return _, w2) => copy_cfgs host dir rest w2
        | (Raise e, w2) => (Raise e, w2)
        end
    | (Raise e, w1) => (Raise e, w1)
    end.
Proof.
  cbn [copy_cfgs]. cbv zeta. unfold bind at 1 2, get_files. unfold copy_note.
  destruct (Fs.exists_ _ (files w)).
  - destruct (bind (os_chmod host _ 511) _ w) as [[[]|e] w1]; [|done].
    unfold bind at 1, logging, emit. by unfold bind.
  - unfold ret at 1. unfold bind at 1, logging, emit. by unfold bind.
Qed.





End LoopFacts.

Section LoopTraces.

Context (host : Host).

(** Whatever its outcome, the copy loop starts no process and raises
    nothing but an [OSError]. *)
Lemma copy_cfgs_trace (dir : string) (cfgs : list string) (w : World) :
  ∃ r w' new,
    copy_cfgs host dir cfgs w = (r, w')
    ∧ events w' = events w ++ new ∧ calm new
    ∧ (r = Return tt ∨ ∃ k, r = Raise (OSError k)).
Proof.
  revert w. induction cfgs as [|cfg rest IH]; intros w.
  - exists (Return tt), w, []. split; [done|]. split; [by rewrite app_nil_r|].
    split; [constructor|by left].
  - rewrite copy_cfgs_cons. cbv zeta.
    set (fname := Path.join dir (Path.basename cfg)).
    assert (∃ r1 w1 new1,
              (if Fs.exists_ fname (files w)
               then bind (os_chmod host fname 511) (λ _, os_remove host fname)
               else ret tt) w = (r1, w1)
              ∧ events w1 = events w ++ new1 ∧ calm new1
              ∧ (r1 = Return tt ∨ ∃ k, r1 = Raise (OSError k)))
      as (r1 & w1 & new1 & -> & E1 & C1 & O1).
    { destruct (Fs.exists_ fname (files w)).
      - unfold bind.
        destruct (os_call_trace host (Chmod fname 511) (Fs.chmod fname 511) w eq_refl)
          as (ra & wa & na & Ha & Ea & Ca & [->|[k ->]]).
        + unfold os_chmod. rewrite Ha.
          destruct (os_call_trace host (Remove fname) (Fs.remove fname) wa eq_refl)
            as (rb & wb & nb & Hb & Eb & Cb & Ob).
          unfold os_remove. rewrite Hb. exists rb, wb, (na ++ nb).
          split; [done|]. split; [by rewrite Eb, Ea, app_assoc|].
          split; [by apply calm_app|done].
        + unfold os_chmod. rewrite Ha. exists (Raise (OSError k)), wa, na.
          split; [done|]. split; [done|]. split; [done|]. right. by exists k.
      - exists (Return tt), w, []. split; [done|]. split; [by rewrite app_nil_r|].
        split; [constructor|by left]. }
    destruct O1 as [->|[k ->]].
    + destruct (os_call_trace host (Copy cfg fname) (Fs.copy cfg fname)
                  {| files := files w1;
                     events := events w1 ++ [copy_note cfg fname] |} eq_refl)
        as (r2 & w2 & new2 & H2 & E2 & C2 & [->|[k ->]]); cbn [events] in E2;
        unfold shutil_copy; rewrite H2.
      * destruct (IH w2) as (r3 & w3 & new3 & -> & E3 & C3 & O3).
        exists r3, w3, (new1 ++ [copy_note cfg fname] ++ new2 ++ new3).
        split; [done|]. split; [by rewrite E3, E2, E1, <- !app_assoc|].
        split; [|done].
        apply calm_app; [done|]. apply calm_app; [by repeat constructor|].
        by apply calm_app.
      * exists (Raise (OSError k)), w2, (new1 ++ [copy_note cfg fname] ++ new2).
        split; [done|]. split; [by rewrite E2, E1, <- !app_assoc|].
        split; [|right; by exists k].
        apply calm_app; [done|]. apply calm_app; [by repeat constructor|done].
    + exists (Raise (OSError k)), w1, new1. split; [done|]. split; [done|].
      split; [done|]. right. by exists k.
Qed.

Lemma install_win_cross_unfold (toolchain : string) (w : World) :
  install_win_cross host toolchain (Path.join (THIS_DIR host) toolchain) w
  = match (if Fs.exists_ (wcedir host toolchain) (files w) then ret tt
           else os_makedirs host (wcedir host toolchain) 493) w with
    | (Return _, w1) =>
        if Fs.exists_ (package_win_cross host toolchain) (files w1)
        then copy_cfgs host (wcedir host toolchain)
               (package_cfgs host toolchain (files w1)) w1
        else (Return tt, w1)
    | (Raise e, w1) => (Raise e, w1)
    end.
Proof.
  unfold install_win_cross, glob. fold (wcedir host toolchain).
  fold (package_win_cross host toolchain). unfold bind at 1 2, get_files.
  destruct (Fs.exists_ (wcedir host toolchain) (files w)); cbn [negb].
  - unfold ret at 1. unfold bind, get_files, ret.
    by destruct (Fs.exists_ (package_win_cross host toolchain) (files w)).
  - destruct (os_makedirs host _ 493 w) as [[[]|e] w1]; [|done].
    unfold bind, get_files, ret.
    by destruct (Fs.exists_ (package_win_cross host toolchain) (files w1)).
Qed.

(** Whatever its outcome, [install_win_cross] starts no process and raises
    nothing but an [OSError]. *)
Lemma install_win_cross_trace (toolchain : string) (w : World) :
  ∃ r w' new,
    install_win_cross host toolchain (Path.join (THIS_DIR host) toolchain) w = (r, w')
    ∧ events w' = events w ++ new ∧ calm new
    ∧ (r = Return tt ∨ ∃ k, r = Raise (OSError k)).
Proof.
  rewrite install_win_cross_unfold.
  assert (∃ r1 w1 new1,
            (if Fs.exists_ (wcedir host toolchain) (files w) then ret tt
             else os_makedirs host (wcedir host toolchain) 493) w = (r1, w1)
            ∧ events w1 = events w ++ new1 ∧ calm new1
            ∧ (r1 = Return tt ∨ ∃ k, r1 = Raise (OSError k)))
    as (r1 & w1 & new1 & -> & E1 & C1 & [->|[k ->]]).
  { destruct (Fs.exists_ _ _).
    - exists (Return tt), w, []. split; [done|]. split; [by rewrite app_nil_r|].
      split; [constructor|by left].
    - by apply os_call_trace. }
  - destruct (Fs.exists_ (package_win_cross host toolchain) (files w1)).
    + destruct (copy_cfgs_trace (wcedir host toolchain)
                  (package_cfgs host toolchain (files w1)) w1)
        as (r2 & w2 & new2 & -> & E2 & C2 & O2).
      exists r2, w2, (new1 ++ new2). split; [done|].
      split; [by rewrite E2, E1, app_assoc|]. split; [by apply calm_app|done].
    + exists (Return tt), w1, new1. split; [done|]. split; [done|].
      split; [done|by left].
  - exists (Raise (OSError k)), w1, new1. split; [done|]. split; [done|].
    split; [done|]. right. by exists k.
Qed.

(** What [CipdEnsure] does, by the answer of the ensure command. *)
Lemma CipdEnsure_trace (pkg_name ref directory : string) (quiet : bool) (w : World) :
  let c := ensure_command pkg_name ref directory quiet in
  let line := Print ("ensure " +:+ pkg_name +:+ " " +:+ ref +:+ " in " +:+ directory) in
  ∃ r w',
    (returncode r = 0
     ∧ CipdEnsure host pkg_name ref directory quiet w = (Return tt, w')
     ∧ events w' = events w ++ [line; Spawn c r; Log INFO (stdout r)])
    ∨ (returncode r ≠ 0
       ∧ ∃ ps new,
           CipdEnsure host pkg_name ref directory quiet w
           = (Raise (if returncode ps =? 0 then CipdError (stdout r)
                     else CipdAuthError (stdout r)), w')
           ∧ events w' = events w ++ [line; Spawn c r; Spawn auth_info_command ps] ++ new
           ∧ calm new).
Proof.
  intros c line. rewrite CipdEnsure_unfold. cbv zeta.
  set (r := ensure_answer host pkg_name ref directory quiet w).
  exists r.
  destruct (returncode r =? 0) eqn:E.
  - apply Z.eqb_eq in E. eexists. left. split; [done|]. split; [reflexivity|].
    run_monad. unfold ensure_done, ensure_started. cbn [events].
    by rewrite <- !app_assoc.
  - apply Z.eqb_neq in E.
    unfold IsCipdLoggedIn. fold auth_info_command. unfold run. run_monad.
    destruct (spawn host auth_info_command _) as [ps fs] eqn:S.
    eexists. right. split; [done|]. exists ps. eexists. run_monad.
    split; [by destruct (returncode ps =? 0)|].
    unfold ensure_done, ensure_started. cbn [events].
    rewrite <- !app_assoc. cbn [app]. split; [reflexivity|]. repeat constructor.
Qed.

Lemma fetch_toolchains_cons (quiet : bool) (prefix : string)
    (entry : string * option string) (rest : list (string * option string)) (w : World) :
  fetch_toolchains host quiet prefix (entry :: rest) w
  = if resolved entry then
      match CipdEnsure host (Path.join prefix entry.1) ("revision/" +:+ Str.str entry.2)
              (Path.join (THIS_DIR host) entry.1) quiet w with
      | (Return _, w') =>
          match install_win_cross host entry.1 (Path.join (THIS_DIR host) entry.1) w' with
          | (Return _, w'') => fetch_toolchains host quiet prefix rest w''
          | (Raise e, w'') => (Raise e, w'')
          end
      | (Raise (CipdAuthError _), w') => (Return 1, asked_to_log_in w')
      | (Raise (CipdError output), w') =>
          (Return 1, {| files := files w'; events := events w' ++ [Log ERROR output] |})
      | (Raise e, w') => (Raise e, w')
      end
    else fetch_toolchains host quiet prefix rest (skipped entry.1 w).
Proof.
  destruct entry as [toolchain revision]. cbn [fetch_toolchains fst snd]. unfold resolved.
  cbn [snd]. destruct (Str.truthy revision); cbn [negb].
  - unfold bind at 1, try.
    destruct (CipdEnsure host _ _ _ _ w) as [[[]|e] w'].
    + by unfold bind.
    + destruct e; try done.
      unfold bind. by rewrite RequestCipdAuthentication_run.
  - done.
Qed.

End LoopTraces.

Section FetchFacts.

Context (host : Host) (quiet : bool) (prefix : string).

(** Every command the loop starts is the fetch of a resolved toolchain or
    the probe after a failed fetch.  The loop ends with 0, with 1, or with
    the [OSError] of a call on the file system; when every process it
    starts succeeds it does not end with 1; and when it ends with 0 every
    process has succeeded, the resolved toolchains have been fetched in
    order and a note has been left for each of the others. *)
Lemma fetch_toolchains_trace (revs : list (string * option string)) (w : World) :
  ∃ result w' new,
    fetch_toolchains host quiet prefix revs w = (result, w')
    ∧ events w' = events w ++ new
    ∧ Forall (λ c, c = auth_info_command
                   ∨ ∃ entry, In entry revs ∧ resolved entry = true
                              ∧ c = fetch_command host quiet prefix entry)
        (spawned new)
    ∧ (result = Return 0 ∨ result = Return 1 ∨ ∃ k, result = Raise (OSError k))
    ∧ ((∀ c r, In (Spawn c r) new → returncode r = 0) → result ≠ Return 1)
    ∧ (result = Return 0 →
       (∀ c r, In (Spawn c r) new → returncode r = 0)
       ∧ spawned new = fetch_command host quiet prefix <$> List.filter resolved revs
       ∧ ∀ entry, In entry revs → resolved entry = false →
           In (Log INFO ("failed to detect " +:+ entry.1 +:+ " revision")) new).
Proof.
  revert w. induction revs as [|entry rest IH]; intros w.
  - exists (Return 0), w, []. cbn. rewrite app_nil_r.
    split; [done|]. split; [done|]. split; [constructor|]. split; [by left|].
    split; [done|]. intros _. split; [by intros|]. split; [done|]. by intros.
  - rewrite fetch_toolchains_cons. destruct (resolved entry) eqn:R.
    + destruct (CipdEnsure_trace host (Path.join prefix entry.1)
                  ("revision/" +:+ Str.str entry.2)
                  (Path.join (THIS_DIR host) entry.1) quiet w)
        as (r & w1 & [(Hrc & -> & Hev)|(Hrc & ps & new1 & -> & Hev & Hcalm)]).
      * destruct (install_win_cross_trace host entry.1 w1)
          as (ri & wi & newi & -> & Hi & Hci & [->|[k ->]]).
        { destruct (IH wi) as (result & w' & new2 & -> & E2 & F2 & O2 & N2 & Z2).
          eexists result, w', _. split; [reflexivity|].
          split; [by rewrite E2, Hi, Hev, <- !app_assoc|].
          rewrite !spawned_app, (calm_spawned _ Hci). split.
          { cbn. constructor.
            - right. exists entry. split; [by left|]. by split.
            - eapply Forall_impl; [exact F2|].
              intros c [->|(e & He & Hr & ->)]; [by left|].
              right. exists e. split; [by right|]. by split. }
          split; [done|]. split.
          { intros Hall. apply N2. intros c0 r0 Hin. apply (Hall c0 r0).
            rewrite !in_app_iff. by right; right. }
          intros Hz. destruct (Z2 Hz) as (Hall & Hsp & Hnotes). split.
          { intros c0 r0. rewrite !in_app_iff. intros [Hin|[Hin|Hin]].
            - cbn in Hin. destruct Hin as [Hin|[Hin|[Hin|[]]]]; try done.
              by injection Hin as <- <-.
            - by destruct (calm_no_spawn _ c0 r0 Hci).
            - by apply (Hall c0). }
          split.
          { cbn [List.filter]. rewrite R. cbn. by rewrite Hsp. }
          intros e [<-|He] Hr; [by rewrite R in Hr|].
          rewrite !in_app_iff. right; right. by apply Hnotes. }
        { eexists (Raise (OSError k)), wi, _. split; [reflexivity|].
          split; [by rewrite Hi, Hev, <- !app_assoc|].
          rewrite !spawned_app, (calm_spawned _ Hci). split.
          { cbn. constructor; [|constructor].
            right. exists entry. split; [by left|]. by split. }
          split; [right; right; by exists k|]. split; done. }
      * assert (∃ w2 new2,
                  (if returncode ps =? 0
                   then (Return 1, {| files := files w1;
                                      events := events w1 ++ [Log ERROR (stdout r)] |})
                   else (Return 1, asked_to_log_in w1)) = (Return 1 : outcome Z, w2)
                  ∧ events w2 = events w1 ++ new2 ∧ calm new2)
          as (w2 & new2 & Hw2 & E2 & C2).
        { destruct (returncode ps =? 0); eexists _, _; (split; [reflexivity|]);
            cbn [asked_to_log_in events]; (split; [reflexivity|]).
          - repeat constructor.
          - apply calm_app; [|by repeat constructor].
            apply Forall_fmap. by apply Forall_true. }
        exists (Return 1), w2, ([Print ("ensure " +:+ Path.join prefix entry.1 +:+ " "
                                        +:+ ("revision/" +:+ Str.str entry.2) +:+ " in "
                                        +:+ Path.join (THIS_DIR host) entry.1);
                                 Spawn (fetch_command host quiet prefix entry) r;
                                 Spawn auth_info_command ps] ++ new1 ++ new2).
        split; [by destruct (returncode ps =? 0)|].
        split; [by rewrite E2, Hev, <- !app_assoc|].
        rewrite !spawned_app, (calm_spawned _ Hcalm), (calm_spawned _ C2). split.
        { cbn. constructor; [right; exists entry; split; [by left|]; by split|].
          constructor; [by left|]. constructor. }
        split; [right; by left|]. split; [|done].
        intros Hall. destruct Hrc. eapply Hall. right. left. reflexivity.
    + destruct (IH (skipped entry.1 w)) as (result & w' & new2 & -> & E2 & F2 & O2 & N2 & Z2).
      eexists result, w', _. split; [reflexivity|].
      split; [by rewrite E2; unfold skipped; cbn [events]; rewrite <- app_assoc|].
      rewrite spawned_app. split.
      { cbn. eapply Forall_impl; [exact F2|].
        intros c [->|(e & He & Hr & ->)]; [by left|].
        right. exists e. split; [by right|]. by split. }
      split; [done|]. split.
      { intros Hall. apply N2. intros c0 r0 Hin. apply (Hall c0 r0).
        rewrite in_app_iff. by right. }
      intros Hz. destruct (Z2 Hz) as (Hall & Hsp & Hnotes). split.
      { intros c0 r0. rewrite in_app_iff. intros [Hin|Hin].
        - cbn in Hin. by destruct Hin as [Hin|[]].
        - by apply (Hall c0). }
      split.
      { cbn [List.filter]. by rewrite R. }
      intros e [<-|He] Hr.
      * rewrite in_app_iff. left. by left.
      * rewrite in_app_iff. right. by apply Hnotes.
Qed.

End FetchFacts.

(** ** [main] *)

Section MainFacts.

Context (host : Host).

Lemma main_revisions_Go (args : Args) (proj : option string) (w w1 : World)
    (prefix : string) (revs : list (string * option string)) :
  main_revisions host args proj w = (Return (Go (prefix, revs)), w1) →
  ∃ nacl,
    revs = [("chromium-browser-clang", Some (PACKAGE_VERSION host));
            ("nacl", nacl);
            ("python", Some "3.8.0")].
Proof.
  unfold main_revisions, ClangRevision. run_monad.
  destruct (skip_remoteexec_cfg_fetch args); [done|].
  destruct (Path.join_opt _ _); [|done].
  destruct (NaclRevision host _) as [[nacl|e] w']; [|done].
  intros [= <- <- <-]. by exists nacl.
Qed.

Lemma main_setup_Go (args : Args) (w w1 : World)
    (prefix : string) (revs : list (string * option string)) :
  main_setup host args w = (Return (Go (prefix, revs)), w1) →
  ∃ nacl,
    revs = [("chromium-browser-clang", Some (PACKAGE_VERSION host));
            ("nacl", nacl);
            ("python", Some "3.8.0")].
Proof.
  unfold main_setup. run_monad.
  destruct (negb _ && negb _); [done|].
  destruct (negb (Str.truthy (rewrapper_cfg_project args))).
  - destruct (rbe_instance args) as [instance|]; [|done]. cbn [Str.truthy Str.str].
    destruct (Str.truthy (reproxy_cfg_template args)).
    + destruct (negb _); [done|].
      destruct (GenerateReproxyCfg host _ _ _ _) as [[[]|e] w']; [| |done].
      * apply main_revisions_Go.
      * done.
    + apply main_revisions_Go.
  - destruct (Str.truthy (reproxy_cfg_template args)).
    + destruct (negb _); [done|].
      destruct (GenerateReproxyCfg host _ _ _ _) as [[[]|e] w']; [| |done].
      * apply main_revisions_Go.
      * done.
    + apply main_revisions_Go.
Qed.

Lemma main_Go (args : Args) (w w1 : World)
    (prefix : string) (revs : list (string * option string)) :
  main_setup host args w = (Return (Go (prefix, revs)), w1) →
  main host args w = fetch_toolchains host (quiet args) prefix revs w1.
Proof. intros H. unfold main, bind. by rewrite H. Qed.

End MainFacts.






(** ** Unresolved toolchains *)

Lemma fetch_toolchains_app (host : Host) (quiet : bool) (prefix : string)
    (pre rest : list (string * option string)) (w w2 : World) :
  fetch_toolchains host quiet prefix pre w = (Return 0, w2) →
  fetch_toolchains host quiet prefix (pre ++ rest) w
  = fetch_toolchains host quiet prefix rest w2.
Proof.
  revert w. induction pre as [|entry pre IH]; intros w.
  - cbn. by intros [= ->].
  - cbn [app]. rewrite !fetch_toolchains_cons.
    destruct (resolved entry); [|apply IH].
    destruct (CipdEnsure host _ _ _ _ w) as [[[]|e] w'].
    + destruct (install_win_cross host _ _ w') as [[[]|e] w'']; [apply IH|done].
    + destruct e; done.
Qed.





Example main_fetches_python_only :
  let h := Demo.linux "" (Demo.answers "ok") in
  let args := Demo.flags (Some "p") None None false in
  let r := main h args Demo.empty_world in
  r.1 = Return 0
  ∧ spawned (events r.2)
    = [ensure_command "infra_internal/rbe/reclient_cfgs/p/python" "revision/3.8.0"
         "/src/buildtools/reclient_cfgs/python" false].
Proof. vm_compute. split; reflexivity. Qed.

(** ** Authentication errors *)

(** C6. Whichever toolchain it is whose fetch raises [CipdAuthError] (the
    toolchains before it fetched or skipped), [main] prints the
    instructions to log in and returns 1; the run ends in the world the
    failed fetch left, with those lines printed and nothing else done, so no
    later toolchain is fetched. *)
Theorem auth_error_stops_run (host : Host) (args : Args) (w w1 w2 w3 : World)
    (prefix : string) (pre post : list (string * option string))
    (entry : string * option string) (output : string) :
  main_setup host args w = (Return (Go (prefix, pre ++ entry :: post)), w1) →
  fetch_toolchains host (quiet args) prefix pre w1 = (Return 0, w2) →
  resolved entry = true →
  CipdEnsure host (Path.join prefix entry.1) ("revision/" +:+ Str.str entry.2)
    (Path.join (THIS_DIR host) entry.1) (quiet args) w2
  = (Raise (CipdAuthError output), w3) →
  ∃ w4,
    main host args w = (Return 1, w4)
    ∧ files w4 = files w3
    ∧ events w4 = events w3 ++ (Print <$> auth_instructions) ++ [Flush].
Proof.
  intros Hsetup Hpre Hres Hauth.
  rewrite (main_Go host _ _ _ _ _ Hsetup).
  rewrite (fetch_toolchains_app host _ _ _ _ _ _ Hpre).
  rewrite fetch_toolchains_cons, Hres, Hauth.
  by exists (asked_to_log_in w3).
Qed.

Lemma auth_error_stops_run_witness :
  let h := Demo.linux "" (Demo.cipd_down 1 "denied") in
  let args := Demo.flags (Some "p") None None false in
  let prefix := "infra_internal/rbe/reclient_cfgs/p" in
  let pre := [("chromium-browser-clang", Some ""); ("nacl", None)] in
  let w1 := (main_setup h args Demo.empty_world).2 in
  let w2 := (fetch_toolchains h false prefix pre w1).2 in
  let w3 := (CipdEnsure h (Path.join prefix "python") "revision/3.8.0"
               (Path.join (THIS_DIR h) "python") false w2).2 in
  ∃ w4,
    main h args Demo.empty_world = (Return 1, w4)
    ∧ files w4 = files w3
    ∧ events w4 = events w3 ++ (Print <$> auth_instructions) ++ [Flush].
Proof.
  intros h args prefix pre w1 w2 w3.
  apply (auth_error_stops_run h args Demo.empty_world w1 w2 w3 prefix pre []
           ("python", Some "3.8.0") "denied").
  - vm_compute. reflexivity.
  - vm_compute. reflexivity.
  - reflexivity.
  - vm_compute. reflexivity.
Defined.

(** ** A project that cannot be derived *)

Lemma GenerateReproxyCfg_calm (host : Host) (t inst : string) (proj : option string)
    (w w' : World) (result : outcome bool) :
  GenerateReproxyCfg host t inst proj w = (result, w') →
  ∃ new, events w' = events w ++ new ∧ calm new.
Proof.
  destruct (files w !! tmpl_path host t) as [[content m|m]|] eqn:E.
  - rewrite (GenerateReproxyCfg_present host t inst proj w content m E).
    destruct (Template.substitute _ _); intros [= <- <-]; unfold generate_started;
      cbn [events]; rewrite <- ?app_assoc; eexists; (split; [reflexivity|]);
      repeat constructor.
  - rewrite GenerateReproxyCfg_missing by (unfold Fs.isfile; by rewrite E).
    intros [= <- <-]. cbn [events]. rewrite <- app_assoc.
    eexists; (split; [reflexivity|]); repeat constructor.
  - rewrite GenerateReproxyCfg_missing by (unfold Fs.isfile; by rewrite E).
    intros [= <- <-]. cbn [events]. rewrite <- app_assoc.
    eexists; (split; [reflexivity|]); repeat constructor.
Qed.

(** No project, an instance that does not match and the fetch not skipped
    do not always end in a [TypeError]: [main] returns 1 when the named
    template is missing. *)
Lemma main_without_project_exit_1 :
  let h := Demo.linux "v" (Demo.answers "") in
  let args := Demo.flags None (Some "mac.cfg") (Some "rbe-chrome") false in
  rewrapper_cfg_project args = None
  ∧ rbe_instance args = Some "rbe-chrome"
  ∧ RbeProjectFromInstance "rbe-chrome" = None
  ∧ skip_remoteexec_cfg_fetch args = false
  ∧ (main h args (Demo.templated "instance=$rbe_instance")).1 = Return 1.
Proof. vm_compute. repeat split; reflexivity. Qed.

(** C9. With no project given, a non-empty instance that does not match
    the pattern, the fetch not skipped, and the template step out of the way
    (no template named, or [GenerateReproxyCfg] returned [True]), [main] ends
    with the [TypeError] of joining the package prefix with [None], before
    any process is started. *)
Theorem main_without_project_TypeError (host : Host) (args : Args)
    (instance : string) (w : World) :
  Str.truthy (rewrapper_cfg_project args) = false →
  rbe_instance args = Some instance → instance ≠ "" →
  RbeProjectFromInstance instance = None →
  skip_remoteexec_cfg_fetch args = false →
  (Str.truthy (reproxy_cfg_template args) = false
   ∨ (GenerateReproxyCfg host (Str.str (reproxy_cfg_template args)) instance None
        (configured args w)).1 = Return true) →
  ∃ w', main host args w = (Raise TypeError, w')
        ∧ calm (drop (length (events w)) (events w')).
Proof.
  intros Hp Hi Hne Hproj Hskip Htemplate.
  unfold main, main_setup, main_revisions. run_monad.
  rewrite Hp, Hi, (truthy_Some instance Hne), Hproj, Hskip. cbn [negb andb Str.str].
  fold (configured args w).
  destruct Htemplate as [->|Hgen].
  - cbn [Path.join_opt]. eexists. split; [reflexivity|]. cbn [events configured].
    rewrite <- app_assoc, drop_app_length. repeat constructor.
  - destruct (Str.truthy (reproxy_cfg_template args)).
    + destruct (GenerateReproxyCfg host _ instance None (configured args w))
        as [result w1] eqn:G.
      cbn in Hgen. subst result. cbn [negb Path.join_opt].
      destruct (GenerateReproxyCfg_calm host _ _ _ _ _ _ G) as (new & Hev & Hcalm).
      eexists. split; [reflexivity|]. cbn [events]. rewrite Hev. cbn [events configured].
      rewrite <- !app_assoc, drop_app_length.
      apply Forall_app_2; [repeat constructor|].
      apply Forall_app_2; [done|repeat constructor].
    + cbn [Path.join_opt]. eexists. split; [reflexivity|]. cbn [events configured].
      rewrite <- app_assoc, drop_app_length. repeat constructor.
Qed.

Lemma main_without_project_TypeError_witness :
  ∃ w', main (Demo.linux "v" (Demo.answers ""))
          (Demo.flags None None (Some "rbe-chrome") false) Demo.empty_world
        = (Raise TypeError, w')
        ∧ calm (drop (length (events Demo.empty_world)) (events w')).
Proof.
  apply (main_without_project_TypeError (Demo.linux "v" (Demo.answers ""))
           (Demo.flags None None (Some "rbe-chrome") false) "rbe-chrome"
           Demo.empty_world).
  - reflexivity.
  - reflexivity.
  - discriminate.
  - vm_compute. reflexivity.
  - reflexivity.
  - left. reflexivity.
Defined.

(** ** The [win-cross] directories *)

Section WinCrossFacts.

Context (host : Host).




End WinCrossFacts.



Example install_win_cross_replaces :
  let h := Demo.linux "v" (Demo.answers "ok") in
  let src := "/src/buildtools/reclient_cfgs/python/win-cross/rewrapper.cfg" in
  let dst := "/src/buildtools/reclient_cfgs/win-cross/python/rewrapper.cfg" in
  let r := install_win_cross h "python" "/src/buildtools/reclient_cfgs/python"
             Demo.fetched in
  r.1 = Return tt
  ∧ events r.2
    = [Chmod dst 511; Remove dst;
       Log INFO ("Copy from " +:+ src +:+ " to " +:+ dst +:+ "..."); Copy src dst]
  ∧ files r.2 !! dst = Some (File "new" 292).
Proof. vm_compute. repeat split; reflexivity. Qed.


(** * Further properties *)

(** ** [NaclRevision] *)

(** X3. In a checkout with [.git], [NaclRevision] is the stripped answer of
    [git log]; when [git] fails the [CalledProcessError] of [check=True]
    is let through.  [git log] is the only process started. *)
Theorem NaclRevision_git (host : Host) (w : World) :
  let nacl_dir := Path.join (CHROMIUM_SRC host) "native_client" in
  let r := (spawn host (git_log_command host) w).1 in
  Fs.exists_ (Path.join nacl_dir "README.md") (files w) = true →
  Fs.isdir (Path.join nacl_dir ".git") (files w) = true →
  (NaclRevision host w).1
  = (if returncode r =? 0 then Return (Some (Str.strip (stdout r)))
     else Raise (CalledProcessError (returncode r) (stdout r)))
  ∧ spawned (since w (NaclRevision host w).2) = [git_log_command host].
Proof.
  intros nacl_dir r Hreadme Hgit. subst r nacl_dir.
  unfold NaclRevision. fold (git_log_command host).
  unfold run_checked, run. run_monad. rewrite Hreadme, Hgit. cbn [negb].
  destruct (spawn host (git_log_command host) w) as [r fs]. cbn [fst].
  destruct (returncode r =? 0); cbn [fst snd]; by rewrite since_app.
Qed.

Lemma NaclRevision_git_witness :
  let h := Demo.linux "v" (Demo.answers (" 0123abc" +:+ nl)) in
  let w := {| files := <["/src/native_client/README.md" := File "" 420]>
                         (<["/src/native_client/.git" := Dir 493]> ∅);
              events := [] |} in
  (NaclRevision h w).1 = Return (Some "0123abc")
  ∧ spawned (since w (NaclRevision h w).2) = [git_log_command h].
Proof.
  intros h w.
  exact (NaclRevision_git h w eq_refl eq_refl).
Defined.

(** X4. [NaclRevision] starts at most one process: none when [README.md] is
    missing (the answer is then [None] and the world is left as it was),
    [git log] when [.git] is a directory, and [gclient revinfo] otherwise,
    run with [DEPOT_TOOLS_UPDATE] set to [0] and the rest of the environment
    passed on. *)
Theorem NaclRevision_processes (host : Host) (w : World) :
  let nacl_dir := Path.join (CHROMIUM_SRC host) "native_client" in
  spawned (since w (NaclRevision host w).2)
  = (if negb (Fs.exists_ (Path.join nacl_dir "README.md") (files w)) then []
     else if Fs.isdir (Path.join nacl_dir ".git") (files w)
          then [git_log_command host]
          else [revinfo_command host])
  ∧ (Fs.exists_ (Path.join nacl_dir "README.md") (files w) = false →
     NaclRevision host w = (Return None, w))
  ∧ (∃ env, cmd_env (revinfo_command host) = Some env
            ∧ env !! "DEPOT_TOOLS_UPDATE" = Some "0"
            ∧ ∀ k, k ≠ "DEPOT_TOOLS_UPDATE" → env !! k = os_environ host !! k).
Proof.
  intros nacl_dir. subst nacl_dir. split; [|split].
  - unfold NaclRevision.
    fold (git_log_command host). fold (revinfo_command host).
    unfold run_checked, run. run_monad.
    destruct (Fs.exists_ _ _); cbn [negb]; [|by rewrite since_refl].
    destruct (Fs.isdir _ _).
    + destruct (spawn host (git_log_command host) w) as [r fs].
      destruct (returncode r =? 0); cbn [snd]; by rewrite since_app.
    + destruct (spawn host (revinfo_command host) w) as [r fs].
      destruct (returncode r =? 0); cbn [snd]; [|by rewrite since_app].
      destruct (parse_commit _) as [commit|e]; cbn [snd]; [by rewrite since_app|].
      destruct e; cbn [snd files events]; rewrite <- ?app_assoc;
        by rewrite since_app.
  - intros H. unfold NaclRevision. run_monad. by rewrite H.
  - eexists. split; [reflexivity|]. split.
    + apply lookup_insert_eq.
    + intros k Hk. by rewrite lookup_insert_ne.
Qed.

Lemma NaclRevision_processes_witness :
  NaclRevision (Demo.linux "v" (Demo.answers "")) Demo.empty_world
  = (Return None, Demo.empty_world).
Proof.
  apply (NaclRevision_processes (Demo.linux "v" (Demo.answers "")) Demo.empty_world).
  reflexivity.
Defined.

(** X2. In a checkout without [.git], once [gclient revinfo] has succeeded
    [NaclRevision] returns and does not raise.  It returns a commit exactly
    when the stripped output has a second [@]-field that is forty or more
    lowercase hex digits, alone or with one newline behind them, and the
    commit is that field; in every other case it returns [None], after a
    warning. *)
Theorem NaclRevision_revinfo (host : Host) (w : World) :
  let nacl_dir := Path.join (CHROMIUM_SRC host) "native_client" in
  let r := (spawn host (revinfo_command host) w).1 in
  let field := Str.split "@" (Str.strip (stdout r)) !! 1%nat in
  Fs.exists_ (Path.join nacl_dir "README.md") (files w) = true →
  Fs.isdir (Path.join nacl_dir ".git") (files w) = false →
  returncode r = 0 →
  (∃ revision, (NaclRevision host w).1 = Return revision)
  ∧ (∀ commit,
       (NaclRevision host w).1 = Return (Some commit)
       ↔ field = Some commit
         ∧ ∃ h, (40 ≤ String.length h)%nat ∧ Str.all Re.hex_lower h = true
                ∧ (commit = h ∨ commit = h +:+ nl))
  ∧ ((NaclRevision host w).1 = Return None →
     List.existsb Demo.is_warning (since w (NaclRevision host w).2) = true).
Proof.
  intros nacl_dir r field Hreadme Hgit Hrc. subst field r.
  unfold NaclRevision. fold nacl_dir. fold (revinfo_command host).
  unfold run_checked, run. run_monad. rewrite Hreadme, Hgit. cbn [negb].
  destruct (spawn host (revinfo_command host) w) as [r fs]. cbn [fst] in *.
  rewrite Hrc. cbn [Z.eqb].
  pose proof (parse_commit_cases (Str.strip (stdout r))) as Hcases.
  destruct (parse_commit (Str.strip (stdout r))) as [commit|e].
  - destruct Hcases as [Hfield Hhex]. cbn [fst snd].
    split; [by eexists|]. split; [|done].
    intros c. rewrite Hfield. split.
    + intros [= <-]. by split.
    + by intros [[= <-] _].
  - destruct e; try done; cbn [fst snd files events]; rewrite <- ?app_assoc;
      rewrite since_app; (split; [by eexists|]); (split; [|done]);
      intros c; (split; [done|]); intros [Hfield Hhex].
    + by rewrite Hfield in Hcases.
    + destruct Hcases as (c' & Hc' & Hno). rewrite Hfield in Hc'.
      injection Hc' as <-. apply commit_re_accepts in Hhex. by rewrite Hhex in Hno.
Qed.

Lemma NaclRevision_revinfo_witness :
  let h := Demo.linux "v"
             (Demo.answers ("src/native_client: https://x@" +:+ Demo.a40 +:+ nl)) in
  (NaclRevision h Demo.exported_nacl).1 = Return (Some Demo.a40).
Proof.
  intros h.
  apply (NaclRevision_revinfo h Demo.exported_nacl eq_refl eq_refl eq_refl).
  split; [reflexivity|]. exists Demo.a40. split; [vm_compute; lia|].
  split; [reflexivity|]. by left.
Defined.

(** ** [CipdEnsure] and the loop *)

(** X5. A call of [CipdEnsure] starts the ensure command once; the probe of
    [IsCipdLoggedIn] follows only when the command failed, and then the call
    raises one of its two errors. *)
Theorem CipdEnsure_processes (host : Host) (pkg_name ref directory : string)
    (quiet : bool) (w : World) :
  let c := ensure_command pkg_name ref directory quiet in
  let run := CipdEnsure host pkg_name ref directory quiet w in
  match run.1 with
  | Return _ => spawned (since w run.2) = [c]
  | Raise e =>
      spawned (since w run.2) = [c; auth_info_command]
      ∧ ∃ output, e = CipdError output ∨ e = CipdAuthError output
  end.
Proof.
  intros c run. subst run.
  destruct (CipdEnsure_trace host pkg_name ref directory quiet w)
    as (r & w' & [(Hrc & -> & Hev)|(Hrc & ps & new & -> & Hev & Hcalm)]);
    cbn [fst snd]; rewrite (since_events _ _ _ Hev).
  - done.
  - split.
    + rewrite spawned_app, (calm_spawned _ Hcalm). done.
    + exists (stdout r). destruct (returncode ps =? 0); [by left|by right].
Qed.

(** X6. Whichever toolchain it is whose fetch raises the plain [CipdError],
    [main] logs the output of the failed command as an error and returns 1,
    in the world the failed fetch left: nothing later is fetched. *)
Theorem fetch_error_stops_run (host : Host) (args : Args) (w w1 w2 w3 : World)
    (prefix : string) (pre post : list (string * option string))
    (entry : string * option string) (output : string) :
  main_setup host args w = (Return (Go (prefix, pre ++ entry :: post)), w1) →
  fetch_toolchains host (quiet args) prefix pre w1 = (Return 0, w2) →
  resolved entry = true →
  CipdEnsure host (Path.join prefix entry.1) ("revision/" +:+ Str.str entry.2)
    (Path.join (THIS_DIR host) entry.1) (quiet args) w2
  = (Raise (CipdError output), w3) →
  main host args w
  = (Return 1, {| files := files w3; events := events w3 ++ [Log ERROR output] |}).
Proof.
  intros Hsetup Hpre Hres Herr.
  rewrite (main_Go host _ _ _ _ _ Hsetup).
  rewrite (fetch_toolchains_app host _ _ _ _ _ _ Hpre).
  by rewrite fetch_toolchains_cons, Hres, Herr.
Qed.

Lemma fetch_error_stops_run_witness :
  let h := Demo.linux "clang-1" (Demo.cipd_down 0 "no such package") in
  let args := Demo.flags (Some "p") None None false in
  let prefix := "infra_internal/rbe/reclient_cfgs/p" in
  let w1 := (main_setup h args Demo.empty_world).2 in
  let w3 := (CipdEnsure h (Path.join prefix "chromium-browser-clang")
               "revision/clang-1" (Path.join (THIS_DIR h) "chromium-browser-clang")
               false w1).2 in
  main h args Demo.empty_world
  = (Return 1,
     {| files := files w3;
        events := events w3 ++ [Log ERROR "no such package"] |}).
Proof.
  intros h args prefix w1 w3.
  apply (fetch_error_stops_run h args Demo.empty_world w1 w1 w3 prefix []
           [("nacl", None); ("python", Some "3.8.0")]
           ("chromium-browser-clang", Some "clang-1") "no such package").
  - vm_compute. reflexivity.
  - reflexivity.
  - reflexivity.
  - vm_compute. reflexivity.
Defined.

(** ** What [main] ends with *)

Section OutcomeFacts.

Context (host : Host).

Lemma render_raises (mapping : gmap string (option string))
    (ts : list Template.token) (e : exn) :
  Template.render mapping ts = Raise e → uncaught e = true.
Proof.
  induction ts as [|tok ts IH]; cbn [Template.render]; [done|].
  destruct (Template.convert mapping tok) as [piece|e'] eqn:C.
  - destruct (Template.render mapping ts) as [out|e'']; [done|].
    intros [= <-]. by apply IH.
  - intros [= <-]. destruct tok; cbn in C; try done.
    + destruct (mapping !! id); [done|]. by injection C as <-.
    + destruct (mapping !! id); [done|]. by injection C as <-.
    + by injection C as <-.
Qed.

Lemma substitute_raises (s : string) (mapping : gmap string (option string))
    (e : exn) :
  Template.substitute s mapping = Raise e → uncaught e = true.
Proof. unfold Template.substitute. apply render_raises. Qed.

Lemma GenerateReproxyCfg_raises (t inst : string) (proj : option string)
    (w w' : World) (e : exn) :
  GenerateReproxyCfg host t inst proj w = (Raise e, w') → uncaught e = true.
Proof.
  destruct (files w !! tmpl_path host t) as [[content m|m]|] eqn:E.
  - rewrite (GenerateReproxyCfg_present host t inst proj w content m E).
    destruct (Template.substitute _ _) as [cfg|e'] eqn:S; [done|].
    intros [= <- _]. exact (substitute_raises _ _ _ S).
  - rewrite GenerateReproxyCfg_missing by (unfold Fs.isfile; by rewrite E). done.
  - rewrite GenerateReproxyCfg_missing by (unfold Fs.isfile; by rewrite E). done.
Qed.

Lemma NaclRevision_raises (w w' : World) (e : exn) :
  NaclRevision host w = (Raise e, w') → uncaught e = true.
Proof.
  unfold NaclRevision, run_checked, run. run_monad.
  destruct (negb _); [done|].
  destruct (Fs.isdir _ _).
  - destruct (spawn host _ w) as [r fs].
    destruct (returncode r =? 0); [done|]. by intros [= <- _].
  - destruct (spawn host _ w) as [r fs].
    destruct (returncode r =? 0); [|by intros [= <- _]].
    pose proof (parse_commit_cases (Str.strip (stdout r))) as Hcases.
    destruct (parse_commit _) as [commit|e']; [done|].
    destruct e'; done.
Qed.

Lemma main_revisions_outcome (args : Args) (proj : option string) (w w' : World)
    (r : outcome (progress (string * list (string * option string)))) :
  main_revisions host args proj w = (r, w') →
  match r with
  | Return (Stop code) => code = 0
  | Return (Go _) => True
  | Raise e => uncaught e = true
  end.
Proof.
  unfold main_revisions, ClangRevision. run_monad.
  destruct (skip_remoteexec_cfg_fetch args); [by intros [= <- _]|].
  destruct proj as [p|]; cbn [Path.join_opt]; [|by intros [= <- _]].
  destruct (NaclRevision host _) as [[nacl|e] w1] eqn:N.
  - by intros [= <- _].
  - intros [= <- _]. by apply NaclRevision_raises in N.
Qed.

Lemma main_setup_outcome (args : Args) (w w' : World)
    (r : outcome (progress (string * list (string * option string)))) :
  main_setup host args w = (r, w') →
  match r with
  | Return (Stop code) => code = 0 ∨ code = 1
  | Return (Go _) => True
  | Raise e => uncaught e = true
  end.
Proof.
  assert (∀ proj w0, main_revisions host args proj w0 = (r, w') →
          match r with
          | Return (Stop code) => code = 0 ∨ code = 1
          | Return (Go _) => True
          | Raise e => uncaught e = true
          end) as Hrev.
  { intros proj w0 H. apply main_revisions_outcome in H.
    destruct r as [[code|g]|e]; auto. }
  unfold main_setup. run_monad.
  destruct (negb _ && negb _); [intros [= <- _]; by right|].
  destruct (negb (Str.truthy (rewrapper_cfg_project args))).
  - destruct (rbe_instance args) as [instance|]; [|by intros [= <- _]].
    cbn [Str.truthy Str.str].
    destruct (Str.truthy (reproxy_cfg_template args)); [|apply Hrev].
    destruct (negb _); [intros [= <- _]; by right|].
    destruct (GenerateReproxyCfg host _ _ _ _) as [[[]|e] w1] eqn:G.
    + apply Hrev.
    + intros [= <- _]. by right.
    + intros [= <- _]. by apply GenerateReproxyCfg_raises in G.
  - destruct (Str.truthy (reproxy_cfg_template args)); [|apply Hrev].
    destruct (negb _); [intros [= <- _]; by right|].
    destruct (GenerateReproxyCfg host _ _ _ _) as [[[]|e] w1] eqn:G.
    + apply Hrev.
    + intros [= <- _]. by right.
    + intros [= <- _]. by apply GenerateReproxyCfg_raises in G.
Qed.

End OutcomeFacts.

(** X7. Once the arguments are parsed, what [main] returns is 0 or 1, and
    no exception that leaves it is one of the errors of [CipdEnsure] or the
    [IndexError] of a [gclient revinfo] answer without [@].  So the script
    ends with status 0 or 1, and with 0 exactly when [main] returned 0. *)
Theorem main_outcomes (host : Host) (args : Args) (w : World) :
  match (main host args w).1 with
  | Return code => code = 0 ∨ code = 1
  | Raise e => uncaught e = true
  end
  ∧ ((script host args w).1 = 0 ∨ (script host args w).1 = 1)
  ∧ ((script host args w).1 = 0 ↔ (main host args w).1 = Return 0).
Proof.
  assert (match (main host args w).1 with
          | Return code => code = 0 ∨ code = 1
          | Raise e => uncaught e = true
          end) as Hmain.
  { unfold main, bind.
    destruct (main_setup host args w) as [r w1] eqn:S.
    apply main_setup_outcome in S.
    destruct r as [[code|[prefix revs]]|e]; cbn [fst]; [done| |done].
    destruct (fetch_toolchains_trace host (quiet args) prefix revs w1)
      as (result & w' & new & -> & _ & _ & [->|[->|[k ->]]] & _); cbn [fst]; auto. }
  split; [done|]. unfold script.
  destruct (main host args w) as [[code|e] w']; cbn [fst] in *.
  - split; [done|]. split; [by intros ->|by intros [= ->]].
  - split; [by right|]. split; done.
Qed.

Section SetupFacts.

Context (host : Host).

Lemma main_revisions_Stop (args : Args) (proj : option string) (w w' : World)
    (code : Z) :
  main_revisions host args proj w = (Return (Stop code), w') →
  skip_remoteexec_cfg_fetch args = true ∧ code = 0 ∧ w' = w.
Proof.
  unfold main_revisions, ClangRevision. run_monad.
  destruct (skip_remoteexec_cfg_fetch args); [by intros [= <- <-]|].
  destruct (Path.join_opt _ _); [|done].
  by destruct (NaclRevision host _) as [[nacl|e] w1].
Qed.

Lemma main_setup_Stop_0 (args : Args) (w w' : World) :
  main_setup host args w = (Return (Stop 0), w') →
  skip_remoteexec_cfg_fetch args = true.
Proof.
  unfold main_setup. run_monad.
  destruct (negb _ && negb _); [done|].
  destruct (negb (Str.truthy (rewrapper_cfg_project args))).
  - destruct (rbe_instance args) as [instance|]; [|done]. cbn [Str.truthy Str.str].
    destruct (Str.truthy (reproxy_cfg_template args)).
    + destruct (negb _); [done|].
      destruct (GenerateReproxyCfg host _ _ _ _) as [[[]|e] w1]; [| |done].
      * intros H. by apply main_revisions_Stop in H as [? _].
      * done.
    + intros H. by apply main_revisions_Stop in H as [? _].
  - destruct (Str.truthy (reproxy_cfg_template args)).
    + destruct (negb _); [done|].
      destruct (GenerateReproxyCfg host _ _ _ _) as [[[]|e] w1]; [| |done].
      * intros H. by apply main_revisions_Stop in H as [? _].
      * done.
    + intros H. by apply main_revisions_Stop in H as [? _].
Qed.

(** The project of the package prefix: the one given, or else the one
    the instance names. *)
Lemma main_revisions_prefix (args : Args) (proj : option string) (w w1 : World)
    (prefix : string) (revs : list (string * option string)) :
  main_revisions host args proj w = (Return (Go (prefix, revs)), w1) →
  ∃ p, proj = Some p ∧ prefix = Path.join (cipd_prefix args) p.
Proof.
  unfold main_revisions, ClangRevision. run_monad.
  destruct (skip_remoteexec_cfg_fetch args); [done|].
  destruct proj as [p|]; cbn [Path.join_opt]; [|done].
  destruct (NaclRevision host _) as [[nacl|e] w']; [|done].
  intros [= <- _ _]. by exists p.
Qed.

End SetupFacts.

(** X8. Without [--skip_remoteexec_cfg_fetch], [main] returns 0 only through
    its loop, and then every process the loop started succeeded: the
    fetches of the resolved toolchains, in order, and no probe. *)
Theorem main_zero_fetched_all (host : Host) (args : Args) (w w2 : World) :
  skip_remoteexec_cfg_fetch args = false →
  main host args w = (Return 0, w2) →
  ∃ prefix revs w1 new,
    main_setup host args w = (Return (Go (prefix, revs)), w1)
    ∧ events w2 = events w1 ++ new
    ∧ (∀ c r, In (Spawn c r) new → returncode r = 0)
    ∧ spawned new
      = fetch_command host (quiet args) prefix <$> List.filter resolved revs.
Proof.
  intros Hskip. unfold main, bind.
  destruct (main_setup host args w) as [[[code|[prefix revs]]|e] w1] eqn:S; [| |done].
  - intros [= -> ->]. apply main_setup_Stop_0 in S. by rewrite Hskip in S.
  - destruct (fetch_toolchains_trace host (quiet args) prefix revs w1)
      as (result & w' & new & -> & Hev & _ & _ & _ & Hzero).
    intros [= -> ->]. destruct (Hzero eq_refl) as (Hall & Hsp & _).
    by exists prefix, revs, w1, new.
Qed.

Lemma main_zero_fetched_all_witness :
  let h := Demo.linux "" (Demo.answers "ok") in
  let args := Demo.flags (Some "p") None None false in
  ∃ prefix revs w1 new,
    main_setup h args Demo.empty_world = (Return (Go (prefix, revs)), w1)
    ∧ events (main h args Demo.empty_world).2 = events w1 ++ new
    ∧ (∀ c r, In (Spawn c r) new → returncode r = 0)
    ∧ spawned new
      = fetch_command h (quiet args) prefix <$> List.filter resolved revs.
Proof.
  intros h args.
  apply (main_zero_fetched_all h args Demo.empty_world).
  - reflexivity.
  - vm_compute. reflexivity.
Defined.

Lemma main_setup_prefix (host : Host) (args : Args) (w w1 : World)
    (prefix : string) (revs : list (string * option string)) :
  main_setup host args w = (Return (Go (prefix, revs)), w1) →
  ∃ p, prefix = Path.join (cipd_prefix args) p
       ∧ (if Str.truthy (rewrapper_cfg_project args)
          then rewrapper_cfg_project args = Some p
          else ∃ instance, rbe_instance args = Some instance
                           ∧ RbeProjectFromInstance instance = Some p).
Proof.
  unfold main_setup. run_monad.
  destruct (negb _ && negb _); [done|].
  destruct (Str.truthy (rewrapper_cfg_project args)) eqn:P; cbn [negb].
  - assert (∀ w0, main_revisions host args (rewrapper_cfg_project args) w0
                  = (Return (Go (prefix, revs)), w1) →
            ∃ p, prefix = Path.join (cipd_prefix args) p
                 ∧ rewrapper_cfg_project args = Some p) as Hrev.
    { intros w0 H. apply main_revisions_prefix in H as (p & Hp & ->). by exists p. }
    destruct (Str.truthy (reproxy_cfg_template args)); [|apply Hrev].
    destruct (negb _); [done|].
    destruct (GenerateReproxyCfg host _ _ _ _) as [[[]|e] w']; [| |done].
    + apply Hrev.
    + done.
  - destruct (rbe_instance args) as [instance|]; [|done]. cbn [Str.truthy Str.str].
    assert (∀ w0, main_revisions host args (RbeProjectFromInstance instance) w0
                  = (Return (Go (prefix, revs)), w1) →
            ∃ p, prefix = Path.join (cipd_prefix args) p
                 ∧ ∃ instance0, Some instance = Some instance0
                                ∧ RbeProjectFromInstance instance0 = Some p) as Hrev.
    { intros w0 H. apply main_revisions_prefix in H as (p & Hp & ->).
      exists p. split; [done|]. by exists instance. }
    destruct (Str.truthy (reproxy_cfg_template args)); [|apply Hrev].
    destruct (negb _); [done|].
    destruct (GenerateReproxyCfg host _ _ _ _) as [[[]|e] w']; [| |done].
    + apply Hrev.
    + done.
Qed.

(** X9. The package prefix is [cipd_prefix] joined with the project: the one
    given with [--rewrapper_cfg_project] when there is one, whatever the
    instance says, and otherwise the one the instance names. *)
Theorem main_package_prefix (host : Host) (args : Args) (w w1 : World)
    (prefix : string) (revs : list (string * option string)) :
  main_setup host args w = (Return (Go (prefix, revs)), w1) →
  ∃ p, prefix = Path.join (cipd_prefix args) p
       ∧ (if Str.truthy (rewrapper_cfg_project args)
          then rewrapper_cfg_project args = Some p
          else ∃ instance, rbe_instance args = Some instance
                           ∧ RbeProjectFromInstance instance = Some p).
Proof. apply main_setup_prefix. Qed.

Lemma main_package_prefix_witness :
  let h := Demo.linux "" (Demo.answers "ok") in
  let args := Demo.flags (Some "mine") None (Some "projects/theirs/instances/i") false in
  ∃ p, "infra_internal/rbe/reclient_cfgs/mine" = Path.join (cipd_prefix args) p
       ∧ (if Str.truthy (rewrapper_cfg_project args)
          then rewrapper_cfg_project args = Some p
          else ∃ instance, rbe_instance args = Some instance
                           ∧ RbeProjectFromInstance instance = Some p).
Proof.
  intros h args.
  apply (main_package_prefix h args Demo.empty_world
           (main_setup h args Demo.empty_world).2
           "infra_internal/rbe/reclient_cfgs/mine"
           [("chromium-browser-clang", Some ""); ("nacl", None);
            ("python", Some "3.8.0")]).
  vm_compute. reflexivity.
Defined.

(** ** More on [GenerateReproxyCfg] *)

Section RenderFacts.

Context (host : Host) (t inst : string) (proj : option string).

Lemma render_app (mapping : gmap string (option string))
    (ts1 ts2 : list Template.token) :
  Template.render mapping (ts1 ++ ts2)
  = match Template.render mapping ts1 with
    | Raise e => Raise e
    | Return out1 =>
        match Template.render mapping ts2 with
        | Raise e => Raise e
        | Return out2 => Return (out1 +:+ out2)
        end
    end.
Proof.
  induction ts1 as [|tok ts1 IH]; cbn [app Template.render].
  - by destruct (Template.render mapping ts2).
  - destruct (Template.convert mapping tok) as [piece|e]; [|done].
    rewrite IH. destruct (Template.render mapping ts1) as [out1|e]; [|done].
    destruct (Template.render mapping ts2) as [out2|e]; [|done].
    by rewrite app_assoc_str.
Qed.

Lemma render_template_error (mapping : gmap string (option string))
    (ts : list Template.token) (e : exn) :
  Template.render mapping ts = Raise e → template_error e = true.
Proof.
  induction ts as [|tok ts IH]; cbn [Template.render]; [done|].
  destruct (Template.convert mapping tok) as [piece|e'] eqn:C.
  - destruct (Template.render mapping ts) as [out|e'']; [done|].
    intros [= <-]. by apply IH.
  - intros [= <-]. destruct tok; cbn in C; try done.
    + destruct (mapping !! id); [done|]. by injection C as <-.
    + destruct (mapping !! id); [done|]. by injection C as <-.
    + by injection C as <-.
Qed.

Lemma substitute_template_error (s : string)
    (mapping : gmap string (option string)) (e : exn) :
  Template.substitute s mapping = Raise e → template_error e = true.
Proof. unfold Template.substitute. apply render_template_error. Qed.

Lemma context_template_name :
  template_context host t inst proj !! "reproxy_cfg_template" = Some (Some t).
Proof. unfold template_context. by simplify_map_eq. Qed.

(** The banner comes out with the name of the template in it. *)
Lemma render_header :
  Template.render (template_context host t inst proj)
    (Template.tokens REPROXY_CFG_HEADER)
  = Return (banner t).
Proof.
  set (ts := Template.tokens REPROXY_CFG_HEADER).
  vm_compute in ts. subst ts.
  cbn [Template.render Template.convert].
  rewrite context_template_name. reflexivity.
Qed.

Lemma substitute_with_header (content : string) :
  Template.substitute (REPROXY_CFG_HEADER +:+ content)
    (template_context host t inst proj)
  = match Template.substitute content (template_context host t inst proj) with
    | Return body => Return (banner t +:+ body)
    | Raise e => Raise e
    end.
Proof.
  unfold Template.substitute. by rewrite tokens_header, render_app, render_header.
Qed.

End RenderFacts.

Section RenderWorlds.

Context (host : Host) (t inst : string) (proj : option string).

Lemma write_lookup_ne (p q data : string) (fs : gmap string node) :
  p ≠ q → Fs.write p data fs !! q = fs !! q.
Proof.
  intros H. unfold Fs.write.
  destruct (fs !! p) as [[d m|m]|]; by rewrite lookup_insert_ne.
Qed.

(** Only the output path can change. *)
Lemma GenerateReproxyCfg_frame (w w' : World) (r : outcome bool) (p : string) :
  GenerateReproxyCfg host t inst proj w = (r, w') →
  p ≠ reproxy_cfg_path host → files w' !! p = files w !! p.
Proof.
  intros H Hp.
  destruct (files w !! tmpl_path host t) as [[content m|m]|] eqn:E.
  - rewrite (GenerateReproxyCfg_present host t inst proj w content m E) in H.
    destruct (Template.substitute _ _); injection H as <- <-; [|done].
    cbn [files]. by rewrite write_lookup_ne.
  - rewrite GenerateReproxyCfg_missing in H by (unfold Fs.isfile; by rewrite E).
    by injection H as <- <-.
  - rewrite GenerateReproxyCfg_missing in H by (unfold Fs.isfile; by rewrite E).
    by injection H as <- <-.
Qed.

Lemma GenerateReproxyCfg_template_error (w w' : World) (e : exn) :
  GenerateReproxyCfg host t inst proj w = (Raise e, w') → template_error e = true.
Proof.
  destruct (files w !! tmpl_path host t) as [[content m|m]|] eqn:E.
  - rewrite (GenerateReproxyCfg_present host t inst proj w content m E).
    destruct (Template.substitute _ _) as [cfg|e'] eqn:S; [done|].
    intros [= <- _]. exact (substitute_template_error _ _ _ S).
  - rewrite GenerateReproxyCfg_missing by (unfold Fs.isfile; by rewrite E). done.
  - rewrite GenerateReproxyCfg_missing by (unfold Fs.isfile; by rewrite E). done.
Qed.

Lemma tokens_plain (s : string) :
  plain s = true →
  List.find offending (Template.tokens s) = None
  ∧ ∀ mapping, Template.render mapping (Template.tokens s) = Return s.
Proof.
  induction s as [|c s IH]; [done|].
  cbn [plain Str.all]. intros [Hc Hs]%andb_true_iff. apply negb_true_iff in Hc.
  rewrite tokens_text by done. destruct (IH Hs) as [Hfind Hrender]. split.
  - done.
  - intros mapping. cbn [Template.render Template.convert]. by rewrite Hrender.
Qed.

End RenderWorlds.


(** X11. A template without any [$] is rendered as it is, behind the
    banner, whatever the instance and the project. *)
Theorem plain_template_rendered (host : Host) (t inst : string)
    (proj : option string) (content : string) :
  plain content = true →
  Template.substitute (REPROXY_CFG_HEADER +:+ content)
    (template_context host t inst proj)
  = Return (banner t +:+ content).
Proof.
  intros Hplain. destruct (tokens_plain content Hplain) as [_ Hrender].
  rewrite substitute_with_header. unfold Template.substitute. by rewrite Hrender.
Qed.

Lemma plain_template_rendered_witness :
  Template.substitute (REPROXY_CFG_HEADER +:+ "service=remote")
    (template_context (Demo.linux "v" (Demo.answers "")) "linux.cfg" "i" None)
  = Return (banner "linux.cfg" +:+ "service=remote").
Proof.
  apply (plain_template_rendered (Demo.linux "v" (Demo.answers "")) "linux.cfg" "i"
           None "service=remote").
  reflexivity.
Defined.

(** ** Runs that fetch nothing *)

Section SkipFacts.

Context (host : Host).

(** What the template step of [main] can do. *)
Lemma GenerateReproxyCfg_step (t inst : string) (proj : option string)
    (w w' : World) (r : outcome bool) :
  GenerateReproxyCfg host t inst proj w = (r, w') →
  (∃ new, events w' = events w ++ new ∧ calm new)
  ∧ (∀ p, p ≠ reproxy_cfg_path host → files w' !! p = files w !! p)
  ∧ match r with Return _ => True | Raise e => template_error e = true end.
Proof.
  intros G. split; [by eapply GenerateReproxyCfg_calm|]. split.
  - intros p Hp. by eapply GenerateReproxyCfg_frame.
  - destruct r as [b|e]; [done|]. by eapply GenerateReproxyCfg_template_error.
Qed.

End SkipFacts.

(** X12. With [--skip_remoteexec_cfg_fetch], [main] starts no process at all:
    no revision is looked up and nothing is fetched.  The only file it can
    change is [reproxy.cfg]; what it returns is 0 or 1, and it never ends
    with the [TypeError] of a project that cannot be derived. *)
Theorem skip_starts_nothing (host : Host) (args : Args) (w : World) :
  skip_remoteexec_cfg_fetch args = true →
  (∃ new, events (main host args w).2 = events w ++ new ∧ calm new)
  ∧ (∀ p, p ≠ reproxy_cfg_path host → files (main host args w).2 !! p = files w !! p)
  ∧ match (main host args w).1 with
    | Return code => code = 0 ∨ code = 1
    | Raise e => e ≠ TypeError
    end.
Proof.
  intros Hskip.
  assert (∀ (r : outcome Z) (w' : World),
            (∃ new, events w' = events (configured args w) ++ new ∧ calm new) →
            (∀ p, p ≠ reproxy_cfg_path host → files w' !! p = files w !! p) →
            match r with
            | Return code => code = 0 ∨ code = 1
            | Raise e => e ≠ TypeError
            end →
            (∃ new, events (r, w').2 = events w ++ new ∧ calm new)
            ∧ (∀ p, p ≠ reproxy_cfg_path host → files (r, w').2 !! p = files w !! p)
            ∧ match (r, w').1 with
              | Return code => code = 0 ∨ code = 1
              | Raise e => e ≠ TypeError
              end) as Hleaf.
  { intros r w' (new & Hev & Hcalm) Hframe Hr. cbn [fst snd].
    split; [|by split]. eexists. split.
    - rewrite Hev. cbn [configured events]. by rewrite <- app_assoc.
    - apply calm_app; [repeat constructor|done]. }
  unfold main, main_setup, main_revisions. run_monad. rewrite Hskip.
  fold (configured args w).
  destruct (Str.truthy (rewrapper_cfg_project args));
    destruct (rbe_instance args) as [i|]; cbn [Str.truthy negb andb Str.str];
  repeat match goal with
         | |- context [GenerateReproxyCfg ?h ?t ?i ?p ?v] =>
             let G := fresh "G" in
             destruct (GenerateReproxyCfg h t i p v) as [[[]|?] ?] eqn:G;
             apply GenerateReproxyCfg_step in G;
             destruct G as (? & ? & ?)
         | |- context [if ?c then _ else _] => destruct c
         | |- context [match ?c with Some _ => _ | None => _ end] => destruct c
         end;
    cbn [negb];
    apply Hleaf;
    first [done | by left | by right
          | by exists []; rewrite app_nil_r; split; [|constructor]
          | by eexists; split; [reflexivity|repeat constructor]
          | by match goal with H : template_error ?e = true |- _ => destruct e end
          | idtac ].
Qed.

Lemma skip_starts_nothing_witness :
  let h := Demo.linux "v" (Demo.answers "") in
  let args := Demo.flags None None (Some "rbe-chrome") true in
  (∃ new, events (main h args Demo.empty_world).2 = events Demo.empty_world ++ new
          ∧ calm new)
  ∧ (∀ p, p ≠ reproxy_cfg_path h →
       files (main h args Demo.empty_world).2 !! p = files Demo.empty_world !! p)
  ∧ match (main h args Demo.empty_world).1 with
    | Return code => code = 0 ∨ code = 1
    | Raise e => e ≠ TypeError
    end.
Proof.
  intros h args. apply (skip_starts_nothing h args Demo.empty_world). reflexivity.
Defined.

(** X13. Without an instance (none, or an empty one), when no project is given
    either or a template is named, [main] returns 1 with one error logged:
    nothing is rendered, looked up or fetched. *)
Theorem main_usage_errors (host : Host) (args : Args) (w : World) :
  Str.truthy (rbe_instance args) = false →
  Str.truthy (rewrapper_cfg_project args) = false
  ∨ Str.truthy (reproxy_cfg_template args) = true →
  ∃ msg,
    main host args w
    = (Return 1,
       {| files := files w;
          events := events w ++ [LogConfig (if quiet args then WARNING else INFO);
                                 Log ERROR msg] |}).
Proof.
  intros Hi Hor. unfold main, main_setup. run_monad. rewrite Hi.
  destruct (Str.truthy (rewrapper_cfg_project args)) eqn:P; cbn [negb andb].
  - destruct Hor as [|Ht]; [done|]. rewrite Ht.
    eexists. cbn [files events]. rewrite <- app_assoc. reflexivity.
  - eexists. cbn [files events]. rewrite <- app_assoc. reflexivity.
Qed.

Lemma main_usage_errors_witness :
  ∃ msg,
    main (Demo.linux "v" (Demo.answers "")) (Demo.flags None None (Some "") false)
      Demo.empty_world
    = (Return 1,
       {| files := files Demo.empty_world;
          events := events Demo.empty_world ++ [LogConfig INFO; Log ERROR msg] |}).
Proof.
  apply (main_usage_errors (Demo.linux "v" (Demo.answers ""))
           (Demo.flags None None (Some "") false) Demo.empty_world).
  - reflexivity.
  - left. reflexivity.
Defined.

(** ** The copy loop *)

Section CopyFacts.

Context (host : Host).


End CopyFacts.



(** ** Patterns *)

(** X1. [^[0-9a-f]{40,}$] accepts forty or more lowercase hex digits, alone or
    followed by one newline, and nothing else. *)
Theorem commit_pattern_language (commit : string) :
  Re.match_ commit_re commit = Some None
  ↔ ∃ h, (40 ≤ String.length h)%nat ∧ Str.all Re.hex_lower h = true
         ∧ (commit = h ∨ commit = h +:+ nl).
Proof. apply commit_re_accepts. Qed.

Lemma word_not_slash (P : string) :
  P ≠ "" → Str.all Re.word_or_hyphen P = true → Str.startswith "/" P = false.
Proof.
  destruct P as [|c P]; [done|]. intros _. cbn [Str.all Str.startswith].
  intros [Hc _]%andb_true_iff. rewrite andb_true_r.
  destruct (Str.eqc "/" c) eqn:E; [|done].
  apply Ascii.eqb_eq in E. subst c. discriminate Hc.
Qed.

(** X15. A project derived from the instance never takes the place of
    [cipd_prefix]: it does not start with a slash, so the join keeps the
    prefix in front of it. *)
Theorem derived_project_under_prefix (host : Host) (args : Args) (w w1 : World)
    (prefix : string) (revs : list (string * option string)) :
  Str.truthy (rewrapper_cfg_project args) = false →
  main_setup host args w = (Return (Go (prefix, revs)), w1) →
  ∃ instance P,
    rbe_instance args = Some instance
    ∧ RbeProjectFromInstance instance = Some P
    ∧ prefix = (if Str.is_empty (cipd_prefix args)
                   || Str.endswith "/" (cipd_prefix args)
                then cipd_prefix args +:+ P
                else cipd_prefix args +:+ "/" +:+ P).
Proof.
  intros Hp Hsetup.
  destruct (main_setup_prefix host args w w1 prefix revs Hsetup) as (P & -> & H).
  rewrite Hp in H. destruct H as (instance & Hi & HP).
  exists instance, P. split; [done|]. split; [done|].
  unfold RbeProjectFromInstance in HP.
  destruct (Re.fullmatch instance_re instance) as [g|] eqn:E; [|done]. subst g.
  apply instance_match_form in E as (P' & I & (_ & Hne & _ & Hw & _) & [= <-]).
  unfold Path.join. by rewrite (word_not_slash P Hne Hw).
Qed.

Lemma derived_project_under_prefix_witness :
  let h := Demo.linux "" (Demo.answers "ok") in
  let args := Demo.flags None None (Some "projects/rbe-chrome/instances/i") false in
  ∃ instance P,
    rbe_instance args = Some instance
    ∧ RbeProjectFromInstance instance = Some P
    ∧ "infra_internal/rbe/reclient_cfgs/rbe-chrome"
      = (if Str.is_empty (cipd_prefix args) || Str.endswith "/" (cipd_prefix args)
         then cipd_prefix args +:+ P
         else cipd_prefix args +:+ "/" +:+ P).
Proof.
  intros h args.
  apply (derived_project_under_prefix h args Demo.empty_world
           (main_setup h args Demo.empty_world).2
           "infra_internal/rbe/reclient_cfgs/rbe-chrome"
           [("chromium-browser-clang", Some ""); ("nacl", None);
            ("python", Some "3.8.0")]).
  - reflexivity.
  - vm_compute. reflexivity.
Defined.

(** X17. A project given with a leading slash takes the place of the whole
    package prefix: [posixpath.join] drops [cipd_prefix] in front of an
    absolute second part. *)
Theorem absolute_project_replaces_prefix (host : Host) (args : Args) (w : World)
    (p : string) :
  rewrapper_cfg_project args = Some p →
  Str.startswith "/" p = true →
  match (main_setup host args w).1 with
  | Return (Go (prefix, _)) => prefix = p
  | _ => True
  end.
Proof.
  intros Hp Hslash.
  destruct (main_setup host args w) as [[[code|[prefix revs]]|e] w1] eqn:Hsetup;
    cbn [fst]; [done| |done].
  destruct (main_setup_prefix host args w w1 prefix revs Hsetup) as (p' & -> & H).
  rewrite Hp in H. destruct p as [|c p]; [done|].
  cbn [Str.truthy Str.is_empty negb] in H.
  injection H as <-. unfold Path.join. by rewrite Hslash.
Qed.

Lemma absolute_project_replaces_prefix_witness :
  let h := Demo.linux "" (Demo.answers "ok") in
  let args := Demo.flags (Some "/mine") None None false in
  match (main_setup h args Demo.empty_world).1 with
  | Return (Go (prefix, _)) => prefix = "/mine"
  | _ => True
  end.
Proof.
  intros h args.
  apply (absolute_project_replaces_prefix h args Demo.empty_world "/mine");
    reflexivity.
Defined.

(** ** Errors after a fetch *)

(** X16. An error of the steps that follow a fetch ends the run at once:
    whichever toolchain it is after whose fetch [install_win_cross] raises,
    the exception, an [OSError], leaves [main] in the world the failed
    call left, and no later toolchain is fetched or noted. *)
Theorem install_error_stops_run (host : Host) (args : Args)
    (w w1 w2 w3 w4 : World) (prefix : string)
    (pre post : list (string * option string))
    (entry : string * option string) (e : exn) :
  main_setup host args w = (Return (Go (prefix, pre ++ entry :: post)), w1) →
  fetch_toolchains host (quiet args) prefix pre w1 = (Return 0, w2) →
  resolved entry = true →
  CipdEnsure host (Path.join prefix entry.1) ("revision/" +:+ Str.str entry.2)
    (Path.join (THIS_DIR host) entry.1) (quiet args) w2
  = (Return tt, w3) →
  install_win_cross host entry.1 (Path.join (THIS_DIR host) entry.1) w3
  = (Raise e, w4) →
  main host args w = (Raise e, w4) ∧ ∃ k, e = OSError k.
Proof.
  intros Hsetup Hpre Hres Hens Hinst. split.
  - rewrite (main_Go host _ _ _ _ _ Hsetup).
    rewrite (fetch_toolchains_app host _ _ _ _ _ _ Hpre).
    by rewrite fetch_toolchains_cons, Hres, Hens, Hinst.
  - destruct (install_win_cross_trace host entry.1 w3)
      as (r & w' & new & Hrun & _ & _ & [->|[k ->]]);
      rewrite Hinst in Hrun; [done|]. injection Hrun as -> _. by exists k.
Qed.

Lemma install_error_stops_run_witness :
  let h := Demo.linux "clang-1" (Demo.answers "ok") in
  let args := Demo.flags (Some "p") None None false in
  let prefix := "infra_internal/rbe/reclient_cfgs/p" in
  let w1 := (main_setup h args Demo.win_cross_is_file).2 in
  let w3 := (CipdEnsure h (Path.join prefix "chromium-browser-clang")
               "revision/clang-1" (Path.join (THIS_DIR h) "chromium-browser-clang")
               false w1).2 in
  main h args Demo.win_cross_is_file = (Raise (OSError NotADirectoryError), w3)
  ∧ ∃ k, OSError NotADirectoryError = OSError k.
Proof.
  intros h args prefix w1 w3.
  apply (install_error_stops_run h args Demo.win_cross_is_file w1 w1 w3 w3 prefix []
           [("nacl", None); ("python", Some "3.8.0")]
           ("chromium-browser-clang", Some "clang-1")).
  - vm_compute. reflexivity.
  - reflexivity.
  - reflexivity.
  - vm_compute. reflexivity.
  - vm_compute. reflexivity.
Defined.

(** ** The toolchain with a revision of its own *)

Lemma spawned_In (c : command) (evs : list event) :
  In c (spawned evs) → ∃ r, In (Spawn c r) evs.
Proof.
  induction evs as [|e evs IH]; [done|].
  unfold spawned in *. cbn [omap list_omap].
  destruct e; cbn [In]; intros H;
    try (destruct (IH H) as [r' Hr]; exists r'; by right).
  destruct H as [<-|H]; [eexists; by left|].
  destruct (IH H) as [r' Hr]. exists r'. by right.
Qed.

(** X18. The [python] toolchain has a revision of its own, [3.8.0]: a run
    that does not skip the fetch returns 0 only after the [python] package
    of that revision has been fetched, with success, into the [python]
    directory beside the script. *)
Theorem main_zero_fetched_python (host : Host) (args : Args) (w w2 : World) :
  skip_remoteexec_cfg_fetch args = false →
  main host args w = (Return 0, w2) →
  ∃ prefix r,
    In (Spawn (ensure_command (Path.join prefix "python") "revision/3.8.0"
                 (Path.join (THIS_DIR host) "python") (quiet args)) r)
       (events w2)
    ∧ returncode r = 0.
Proof.
  intros Hskip. unfold main, bind.
  destruct (main_setup host args w) as [[[code|[prefix revs]]|e] w1] eqn:Hsetup;
    [| |done].
  { intros [= -> ->]. apply main_setup_Stop_0 in Hsetup. by rewrite Hskip in Hsetup. }
  destruct (fetch_toolchains_trace host (quiet args) prefix revs w1)
    as (result & w' & new & -> & Hev & _ & _ & _ & Hzero).
  intros [= -> ->]. destruct (Hzero eq_refl) as (Hall & Hsp & _).
  destruct (main_setup_Go host args w w1 prefix revs Hsetup) as [nacl ->].
  assert (In (fetch_command host (quiet args) prefix ("python", Some "3.8.0"))
            (spawned new)) as Hin.
  { rewrite Hsp. apply in_map, filter_In. split; [|done]. cbn. tauto. }
  apply spawned_In in Hin as [r Hr]. exists prefix, r.
  split; [|by eapply Hall]. rewrite Hev, in_app_iff. by right.
Qed.

Lemma main_zero_fetched_python_witness :
  let h := Demo.linux "" (Demo.answers "ok") in
  let args := Demo.flags (Some "p") None None false in
  ∃ prefix r,
    In (Spawn (ensure_command (Path.join prefix "python") "revision/3.8.0"
                 (Path.join (THIS_DIR h) "python") (quiet args)) r)
       (events (main h args Demo.empty_world).2)
    ∧ returncode r = 0.
Proof.
  intros h args.
  apply (main_zero_fetched_python h args Demo.empty_world).
  - reflexivity.
  - vm_compute. reflexivity.
Defined.
